(** * The Cartesian product functorial construction and the abelian
      Lie algebra example

    A shallow embedding of

    - [sage/categories/cartesian_product.py]: the singleton
      [CartesianProductFunctor] with its [__call__], and the abstract
      base class [CartesianProductsCategory];
    - [sage/categories/examples/finite_dimensional_lie_algebras_with_basis.py]:
      the parent [AbelianLieAlgebra] with its element class.

    Both files lean on collaborators that live elsewhere in the library
    (categories and their order, the generic covariant construction, the
    enumerated-set coercion, free modules, unique representation).  Those
    are either left as parameters (an interface, or the calls of a
    computation), or modelled from the design document; every such
    definition says so in its comment. *)

From stdpp Require Import base option list strings relations gmap.

(** ** Python results *)

(** The exceptions that can cross the functions modelled here. *)
Inductive exn : Type :=
| TypeError
| AttributeError
| ValueError
| ArithmeticError
| ReferenceError.

(** A call either returns a value or raises. *)
Inductive Result (A : Type) : Type :=
| Ok (a : A)
| Raise (e : exn).
Arguments Ok {A} a.
Arguments Raise {A} e.

Definition result_bind {A B} (r : Result A) (f : A -> Result B) : Result B :=
  match r with
  | Ok a => f a
  | Raise e => Raise e
  end.

Definition result_map {A B} (f : A -> B) (r : Result A) : Result B :=
  result_bind r (fun a => Ok (f a)).

Definition is_Ok {A} (r : Result A) : bool :=
  match r with Ok _ => true | Raise _ => false end.

(** A list comprehension [[f(a) for a in l]] over a function that may
    raise: the first exception ends the comprehension. *)
Fixpoint result_mapM {A B} (f : A -> Result B) (l : list A) : Result (list B) :=
  match l with
  | [] => Ok []
  | a :: l' =>
      result_bind (f a) (fun b =>
      result_bind (result_mapM f l') (fun bs => Ok (b :: bs)))
  end.

(** ** Rings

    A ring is a unique parent of the library; only its identity matters
    here, so it is represented by its name. *)
Inductive Ring : Type :=
| ring_of (name : string).

Definition ZZ : Ring := ring_of "Integer Ring".
Definition QQ : Ring := ring_of "Rational Field".

#[global] Instance Ring_eq_dec : EqDecision Ring.
Proof. solve_decision. Defined.

#[global] Instance Ring_countable : Countable Ring.
Proof.
  refine (inj_countable' (fun r => match r with ring_of s => s end) ring_of _).
  by intros [s].
Defined.

(** ** Categories *)

(** The categories defined outside [cartesian_product.py] ([Sets()],
    [Monoids()], [Algebras(ZZ)], ...) are not part of the two files.  What
    the construction needs to know about them is collected in one
    interface. *)
Class Hierarchy : Type := {
  (** the categories that are not themselves built by the construction *)
  BaseCat : Type;
  (** [Sets()] *)
  Sets : BaseCat;
  (** whether the class of the category declares a nested class called
      ["CartesianProducts"] *)
  declares_CartesianProducts : BaseCat -> bool;
  (** the immediate super categories, [super_categories()] *)
  named_super_categories : BaseCat -> list BaseCat;
  (** [base_ring()], for the categories parameterized over a ring *)
  named_base_ring : BaseCat -> option Ring;
}.

Module CartesianProductsCategory.
Section WithHierarchy.
Context `{H : Hierarchy}.

(** A category is either one of the hierarchy, or an instance of (a
    subclass of) [CartesianProductsCategory], which records the category
    it was built from. *)
Inductive Category : Type :=
| Named (c : BaseCat)
| CartesianProductsOf (base : Category).

Definition _functor_category : string := "CartesianProducts".

(** Modelled from the spec: [base_category()] is inherited from
    [CovariantConstructionCategory] in
    [covariant_functorial_construction.py], which is missing.  It
    "returns the originating (non-constructed) category"; categories of
    the hierarchy have no such method. *)
Definition base_category (self : Category) : Result Category :=
  match self with
  | CartesianProductsOf base => Ok base
  | Named _ => Raise AttributeError
  end.

(** Modelled from the spec: [category_of] of the missing
    [covariant_functorial_construction.py].  A category "may declare a
    nested sub-definition per known construction name", which "when
    present, becomes the category assigned to objects built by that
    construction"; where none exists "the construction is undefined" and
    the lookup is a type error. *)
Definition category_of (c : BaseCat) : Result Category :=
  if declares_CartesianProducts c
  then Ok (CartesianProductsOf (Named c))
  else Raise TypeError.

(** [C.CartesianProducts()].  On an instance of
    [CartesianProductsCategory] this is the method of the class
    (cartesian_product.py, lines 204-218): [return self].  On any other
    category it is the accessor of the framework. *)
Definition CartesianProducts (self : Category) : Result Category :=
  match self with
  | CartesianProductsOf _ => Ok self
  | Named c => category_of c
  end.

(** [base_ring()].  On an instance of [CartesianProductsCategory]
    (lines 220-229): [return self.base_category().base_ring()]. *)
Fixpoint base_ring (self : Category) : Result Ring :=
  match self with
  | CartesianProductsOf base => base_ring base
  | Named c =>
      match named_base_ring c with
      | Some R => Ok R
      | None => Raise AttributeError
      end
  end.

(** Modelled from the spec: the subcategory order lives in [category.py]
    and [covariant_functorial_construction.py], both missing; the spec
    only says that categories "form a directed acyclic partial order".
    The immediate super categories of a constructed category are taken
    as the docstring of [CartesianProductFunctor] lists them for
    [Monoids().CartesianProducts()] (lines 68-90): the base category, and
    the constructed categories of the base's super categories that
    support the construction. *)
Fixpoint super_categories (self : Category) : list Category :=
  match self with
  | Named c => Named <$> named_super_categories c
  | CartesianProductsOf base =>
      base ::
      omap (fun d => match CartesianProducts d with
                     | Ok d' => Some d'
                     | Raise _ => None
                     end) (super_categories base)
  end.

(** One step up in the order. *)
Definition super_step (a b : Category) : Prop := b ∈ super_categories a.

(** [A.is_subcategory(B)]: [B] is reached from [A] through super
    categories. *)
Definition is_subcategory (a b : Category) : Prop := rtc super_step a b.


#[global] Instance Category_eq_dec `{EqDecision BaseCat} : EqDecision Category.
Proof. solve_decision. Defined.

(** The order, decided along chains of at most [fuel] steps. *)
Fixpoint reaches `{EqDecision BaseCat} (fuel : nat) (a b : Category) : bool :=
  bool_decide (a = b) ||
  match fuel with
  | O => false
  | S fuel' => existsb (fun c => reaches fuel' c b) (super_categories a)
  end.

End WithHierarchy.
End CartesianProductsCategory.

(** ** The functor *)

Module CartesianProductFunctor.
Import CartesianProductsCategory.

(** Python types, as far as [type(arg) in native_python_containers] can
    tell them apart: the four builtin containers, a class derived from
    another type, and any other class. *)
Inductive PyType : Type :=
| tuple_t
| list_t
| set_t
| frozenset_t
| subclass (name : string) (base : PyType)
| other (name : string).

#[global] Instance PyType_eq_dec : EqDecision PyType.
Proof. solve_decision. Defined.

(** Line 19: [native_python_containers = set([tuple, list, set, frozenset])].
    Membership of a type object in a set of type objects is identity. *)
Definition native_python_containers : list PyType :=
  [tuple_t; list_t; set_t; frozenset_t].

(** [issubclass(ty, base)] with [ty is not base]. *)
Fixpoint strict_subclass (ty base : PyType) : bool :=
  match ty with
  | subclass _ parent => bool_decide (parent = base) || strict_subclass parent base
  | _ => false
  end.

(** The items a plain container holds. *)
Inductive Atom : Type :=
| AInt (z : Z)
| AStr (s : string).

Section WithHierarchy.
Context `{H : Hierarchy}.

(** The objects [__call__] can meet in [args] or return. *)
#[warnings="-register-all"] Inductive PyObj : Type :=
(** an instance of a container type (builtin, or a class derived from
    one), with its items in iteration order *)
| Container (ty : PyType) (items : list Atom)
(** a category-aware object: a parent, with what [category()] returns *)
| ParentObj (cls : string) (label : list Atom) (cat : Category)
(** [CartesianProduct(sets, category)] of [sage.sets.cartesian_product],
    which is not among the two files: kept as the data it is given, the
    tuple of factors and the category *)
| CartesianProduct (sets : list PyObj) (cat : Category)
(** any other object: no [category()], no container *)
| Foreign (cls : string).

(** [type(arg)] *)
Definition type (arg : PyObj) : PyType :=
  match arg with
  | Container ty _ => ty
  | ParentObj cls _ _ => other cls
  | CartesianProduct _ _ => other "CartesianProduct_with_category"
  | Foreign cls => other cls
  end.

(** [arg.category()]; an object without the accessor raises. *)
Definition category (arg : PyObj) : Result Category :=
  match arg with
  | ParentObj _ _ cat => Ok cat
  | CartesianProduct _ cat => Ok cat
  | _ => Raise AttributeError
  end.

(** The tuple of factors a Cartesian product object stores. *)
Definition _sets (arg : PyObj) : Result (list PyObj) :=
  match arg with
  | CartesianProduct sets _ => Ok sets
  | _ => Raise AttributeError
  end.

(** The two collaborators [__call__] hands work to, both defined outside
    the module. *)
Inductive Call : Type :=
(** [Sets()(a, enumerated_set=True)]: the enumerated-set wrapper *)
| Sets_call (a : PyObj)
(** [super(CartesianProductFunctor, self).__call__(args)]: the generic
    path of [CovariantFunctorialConstruction] *)
| super_call (args : list PyObj).

(** A computation that returns, raises, or calls a collaborator and goes
    on with its answer. *)
Inductive Prog (A : Type) : Type :=
| Ret (a : A)
| Throw (e : exn)
| Vis (c : Call) (k : PyObj -> Prog A).
Arguments Ret {A} a.
Arguments Throw {A} e.
Arguments Vis {A} c k.

Fixpoint bind {A B} (p : Prog A) (f : A -> Prog B) : Prog B :=
  match p with
  | Ret a => f a
  | Throw e => Throw e
  | Vis c k => Vis c (fun x => bind (k x) f)
  end.

Definition call (c : Call) : Prog PyObj := Vis c Ret.

Definition lift {A} (r : Result A) : Prog A :=
  match r with
  | Ok a => Ret a
  | Raise e => Throw e
  end.

Notation "'let!' x ':=' p 'in' q" := (bind p (fun x => q))
  (at level 10, x name, p at level 100, q at level 200, only parsing).

(** [[f(a) for a in l]] *)
Fixpoint mapM {A B} (f : A -> Prog B) (l : list A) : Prog (list B) :=
  match l with
  | [] => Ret []
  | a :: l' => let! b := f a in let! bs := mapM f l' in Ret (b :: bs)
  end.

(** [any(type(arg) in native_python_containers for arg in args)] *)
Definition any_native (args : list PyObj) : bool :=
  existsb (fun arg => bool_decide (type arg ∈ native_python_containers)) args.

(** Truth value of a list: [not args] holds of the empty list only. *)
Definition truthy {A} (args : list A) : bool :=
  match args with
  | [] => false
  | _ :: _ => true
  end.

(** Lines 126-174.
<<
    if any(type(arg) in native_python_containers for arg in args):
        S = Sets()
        args = [S(a, enumerated_set=True) for a in args]
    elif not args:
        return CartesianProduct((), Sets().CartesianProducts())
    return super(CartesianProductFunctor, self).__call__(args)
>> *)
Definition __call__ (args : list PyObj) : Prog PyObj :=
  if any_native args then
    let S := Sets_call in
    let! args := mapM (fun a => call (S a)) args in
    call (super_call args)
  else if negb (truthy args) then
    let! cat := lift (CartesianProducts (Named Sets)) in
    Ret (CartesianProduct [] cat)
  else
    call (super_call args).

(** The plain-container rule as the design document words it: first
    coerce every argument into a finite enumerated set, then call the
    generic path on the coerced sequence. *)
Definition coerce_then_generic (args : list PyObj) : Prog PyObj :=
  let! coerced := mapM (fun a => call (Sets_call a)) args in
  call (super_call coerced).

(** Running a computation in a world where the collaborators are given by
    [handle]; the world is whatever shared state they keep (caches, the
    registry). *)
Fixpoint run {World A} (handle : Call -> World -> Result PyObj * World)
    (p : Prog A) (w : World) : Result A * World :=
  match p with
  | Ret a => (Ok a, w)
  | Throw e => (Raise e, w)
  | Vis c k =>
      match handle c w with
      | (Ok x, w') => run handle (k x) w'
      | (Raise e, w') => (Raise e, w')
      end
  end.

(** The collaborator calls made during that run, in order. *)
Fixpoint calls {World A} (handle : Call -> World -> Result PyObj * World)
    (p : Prog A) (w : World) : list Call :=
  match p with
  | Ret _ | Throw _ => []
  | Vis c k =>
      c :: match handle c w with
           | (Ok x, w') => calls handle (k x) w'
           | (Raise _, _) => []
           end
  end.

(** Modelled from the spec: [CovariantFunctorialConstruction.__call__],
    the generic path of the missing
    [covariant_functorial_construction.py].  "For each argument, retrieve
    its category; for each category, look up the nested sub-definition
    named by the construction's target-category-name; compute the join
    across all retrieved sub-definition categories", which "becomes the
    category field of the result"; construction is delegated to
    [CartesianProduct(args, category)].  It "fails with TypeError-equivalent
    when an argument lacks a category() accessor or when no nested
    sub-definition exists".  The join is "defined elsewhere" and stays a
    parameter. *)
Definition generic_apply (join : list Category -> Category)
    (args : list PyObj) : Result PyObj :=
  match result_mapM category args with
  | Raise _ => Raise TypeError
  | Ok cats =>
      match result_mapM CartesianProducts cats with
      | Raise _ => Raise TypeError
      | Ok subs => Ok (CartesianProduct args (join subs))
      end
  end.

(** The collaborators, with the generic path as above and the wrapper
    [wrap] left open. *)
Definition handle_with {World} (join : list Category -> Category)
    (wrap : PyObj -> World -> Result PyObj * World)
    (c : Call) (w : World) : Result PyObj * World :=
  match c with
  | Sets_call a => wrap a w
  | super_call args => (generic_apply join args, w)
  end.

(** [__call__] coerces [args] when some run of it reaches the wrapper. *)
Definition coerces (args : list PyObj) : Prop :=
  exists (World : Type) (handle : Call -> World -> Result PyObj * World) (w : World) (a : PyObj),
    Sets_call a ∈ calls handle (__call__ args) w.

End WithHierarchy.

Arguments Ret {H A} a.
Arguments Throw {H A} e.
Arguments Vis {H A} c k.

End CartesianProductFunctor.

(** ** The abelian Lie algebra example *)

(** Free modules come from [sage.modules.free_module], outside the two
    files.  The example uses them through this interface. *)
Class ModuleLibrary : Type := {
  (** free modules and their submodules *)
  Mod : Type;
  (** their elements *)
  Vector : Type;
  Mod_eq_dec :: EqDecision Mod;
  Mod_countable :: Countable Mod;
  (** [FreeModule(R, n)]; [n] may be [None] *)
  FreeModule : Ring -> option Z -> Result Mod;
  (** [M.change_ring(R)] *)
  change_ring : Mod -> Ring -> Result Mod;
  (** [M.zero()] *)
  module_zero : Mod -> Vector;
  (** [M.subspace(gens)] *)
  subspace : Mod -> list Vector -> Result Mod;
  (** [M.rank()] *)
  rank : Mod -> Z;
}.

Module AbelianLieAlgebra.

(** Instances are compared by identity; an instance is known by its
    address in the heap. *)
Abbreviation addr := positive (only parsing).

(** The arguments [__classcall__] receives, which key the cache of
    instances: [(R, n, M, ambient)]. *)
Abbreviation Key := (Ring * option Z * Mod * option positive)%type (only parsing).

Section WithModules.
Context `{L : ModuleLibrary}.


(** The categories [__init__] computes:
    [LieAlgebras(R).FiniteDimensional().WithBasis()] and its
    [Subobjects()]. *)
Inductive LieCategory : Type :=
| FiniteDimensionalLieAlgebrasWithBasis (R : Ring)
| Subobjects (base : LieCategory).

(** The attributes of an instance: [_M], [_ambient], and the base ring and
    category handed to [Parent.__init__]. *)
Record Instance : Type := {
  _M : Mod;
  _ambient : addr;
  _base : Ring;
  _category : LieCategory;
}.

(** An element: its parent and the wrapped vector [value]. *)
Record Element : Type := {
  parent : addr;
  value : Vector;
}.


(** The shared state: the cache of unique representation, the instances
    themselves, and what [cached_method] remembers for [zero]. *)
Record World : Type := {
  cache : gmap Key addr;
  heap : gmap addr Instance;
  zero_cache : gmap addr Element;
}.

Definition empty_world : World :=
  {| cache := ∅; heap := ∅; zero_cache := ∅ |}.

(** Computations over the shared state that may raise. *)
Definition St (A : Type) : Type := World -> Result A * World.

Definition ret {A} (a : A) : St A := fun w => (Ok a, w).

Definition raise {A} (e : exn) : St A := fun w => (Raise e, w).

Definition st_bind {A B} (m : St A) (f : A -> St B) : St B :=
  fun w =>
    match m w with
    | (Ok a, w') => f a w'
    | (Raise e, w') => (Raise e, w')
    end.

Definition of_result {A} (r : Result A) : St A :=
  fun w => (r, w).

Notation "'do!' x ':=' m 'in' k" := (st_bind m (fun x => k))
  (at level 10, x name, m at level 100, k at level 200, only parsing).

(** Reading the attributes of [self].  An address that is not in the heap
    cannot arise from a Python reference; the model raises there. *)
Definition deref (self : addr) : St Instance :=
  fun w =>
    match heap w !! self with
    | Some inst => (Ok inst, w)
    | None => (Raise ReferenceError, w)
    end.

(** Lines 80-94.
<<
    self._M = M
    cat = LieAlgebras(R).FiniteDimensional().WithBasis()
    if ambient is None:
        ambient = self
    else:
        cat = cat.Subobjects()
    self._ambient = ambient
    Parent.__init__(self, base=R, category=cat)
>>
    [__classcall_private__] always passes a module for [M]. *)
Definition __init__ (self : addr) (R : Ring) (n : option Z) (M : Mod)
    (ambient : option addr) : Instance :=
  let cat := FiniteDimensionalLieAlgebrasWithBasis R in
  let '(ambient, cat) :=
    match ambient with
    | None => (self, cat)
    | Some ambient => (ambient, Subobjects cat)
    end in
  {| _M := M; _ambient := ambient; _base := R; _category := cat |}.

(** Modelled from the spec: [__classcall__] of [UniqueRepresentation]
    ([sage.structure.unique_representation], missing).  Objects are
    "memoized by normalized constructor arguments": "two calls with equal
    normalized arguments must return the identical cached instance";
    otherwise the instance is created, initialized and stored.  While a
    caller holds the instance the cache keeps it. *)
Definition __classcall__ (R : Ring) (n : option Z) (M : Mod)
    (ambient : option addr) : St addr :=
  fun w =>
    match cache w !! (R, n, M, ambient) with
    | Some self => (Ok self, w)
    | None =>
        let self := fresh (dom (heap w)) in
        (Ok self,
         {| cache := <[(R, n, M, ambient) := self]> (cache w);
            heap := <[self := __init__ self R n M ambient]> (heap w);
            zero_cache := zero_cache w |})
    end.

(** Lines 74-77: the module the arguments are normalized to.
<<
    if M is None:
        M = FreeModule(R, n)
    else:
        M = M.change_ring(R)
>> *)
Definition normalized_M (R : Ring) (n : option Z) (M : option Mod) : Result Mod :=
  match M with
  | None => FreeModule R n
  | Some M => change_ring M R
  end.

(** The argument tuple [__classcall_private__] passes on: [n] is replaced
    by [None] and [M] by the normalized module. *)
Definition normalized_args (R : Ring) (n : option Z) (M : option Mod)
    (ambient : option addr) : Result Key :=
  result_map (fun M => (R, None, M, ambient)) (normalized_M R n M).

(** Lines 50-78: [AbelianLieAlgebra(R, n=None, M=None, ambient=None)].
<<
    return super(AbelianLieAlgebra, cls).__classcall__(cls, R, n=None, M=M, ambient=ambient)
>> *)
Definition __classcall_private__ (R : Ring) (n : option Z) (M : option Mod)
    (ambient : option addr) : St addr :=
  do! M := of_result (normalized_M R n M) in
  __classcall__ R None M ambient.

(** [Parent.base_ring()]: the [base] given to [Parent.__init__]. *)
Definition base_ring (self : addr) : St Ring :=
  do! inst := deref self in ret (_base inst).

(** Lines 112-113: [return self._M.rank()]. *)
Definition n (self : addr) : St Z :=
  do! inst := deref self in ret (rank (_M inst)).

(** Lines 139-150, a [cached_method]: [return self.element_class(self, self._M.zero())],
    computed at the first call and remembered. *)
Definition zero (self : addr) : St Element :=
  fun w =>
    match zero_cache w !! self with
    | Some z => (Ok z, w)
    | None =>
        match heap w !! self with
        | Some inst =>
            let z := {| parent := self; value := module_zero (_M inst) |} in
            (Ok z, {| cache := cache w; heap := heap w;
                      zero_cache := <[self := z]> (zero_cache w) |})
        | None => (Raise ReferenceError, w)
        end
    end.

(** Lines 166-178: [return self._ambient]. *)
Definition ambient (self : addr) : St addr :=
  do! inst := deref self in ret (_ambient inst).

(** Lines 229-247: [return self._M]. *)
Definition free_module (self : addr) : St Mod :=
  do! inst := deref self in ret (_M inst).

(** Lines 180-199.
<<
    N = self._M.subspace([g.value for g in gens])
    return AbelianLieAlgebra(self.base_ring(), M=N, ambient=self._ambient)
>> *)
Definition subalgebra (self : addr) (gens : list Element) : St addr :=
  do! inst := deref self in
  do! N := of_result (subspace (_M inst) (value <$> gens)) in
  do! R := base_ring self in
  __classcall_private__ R None (Some N) (Some (_ambient inst)).

(** Lines 286-299, [Element._bracket_]: [return self.parent().zero()]. *)
Definition _bracket_ (self y : Element) : St Element :=
  zero (parent self).

(** Lines 317-329, [Element.to_vector]: [return self.value]. *)
Definition to_vector (self : Element) : Vector := value self.

(** Every cached key leads to the instance [__init__] built from it. *)
Definition cache_consistent (w : World) : Prop :=
  forall R n M amb self,
    cache w !! (R, n, M, amb) = Some self ->
    heap w !! self = Some (__init__ self R n M amb).

End WithModules.
End AbelianLieAlgebra.

(** ** Instances of the interfaces, for evaluation *)

Module Examples.
Import CartesianProductsCategory CartesianProductFunctor.

(** The categories the docstrings of [cartesian_product.py] mention. *)
Inductive DocCat : Type :=
| Objects
| SetsWithPartialMaps
| SetsCat
| Magmas
| UnitalMagmas
| Semigroups
| Monoids
| FiniteEnumeratedSets
| Algebras (R : Ring).

#[global] Instance DocCat_eq_dec : EqDecision DocCat.
Proof. solve_decision. Defined.

(** Their order as the listing of [C.categories()] shows it (lines 68-90);
    [Algebras(R)] is put under [Monoids()], the categories in between
    are left out. *)
#[global] Instance doc_hierarchy : Hierarchy := {|
  BaseCat := DocCat;
  Sets := SetsCat;
  declares_CartesianProducts c :=
    match c with
    | Objects | SetsWithPartialMaps => false
    | _ => true
    end;
  named_super_categories c :=
    match c with
    | Objects => []
    | SetsWithPartialMaps => [Objects]
    | SetsCat => [SetsWithPartialMaps]
    | Magmas => [SetsCat]
    | UnitalMagmas => [Magmas]
    | Semigroups => [Magmas]
    | Monoids => [Semigroups; UnitalMagmas]
    | FiniteEnumeratedSets => [SetsCat]
    | Algebras _ => [Monoids]
    end;
  named_base_ring c :=
    match c with
    | Algebras R => Some R
    | _ => None
    end;
|}.

(** A category of that hierarchy. *)
Abbreviation doc c := (@Named doc_hierarchy c).

(** A handler that records every call in the world and answers with an
    opaque parent of [Sets()]. *)
Definition recording_handle (c : Call) (w : list Call) : Result PyObj * list Call :=
  (Ok (ParentObj "Set_object" [] (Named SetsCat)), w ++ [c]).

(** An instance of [class MyList(list)], and a parent of [Monoids()]. *)
Definition my_list_0_1 : PyObj :=
  Container (subclass "MyList" list_t) [AInt 0; AInt 1].
Definition a_monoid : PyObj := ParentObj "FreeMonoid" [AStr "M"] (doc Monoids).

(** [[0, 1]] and [('a', 'b', 'c')], the arguments of the docstring
    (line 143). *)
Definition list_0_1 : PyObj := Container list_t [AInt 0; AInt 1].
Definition tuple_a_b_c : PyObj :=
  Container tuple_t [AStr "a"; AStr "b"; AStr "c"].

(** Modules given by base ring, degree and a list of spanning rows; no
    echelon form is computed. *)
Definition unit_row (n i : nat) : list Z :=
  (fun j => if decide (i = j) then 1%Z else 0%Z) <$> seq 0 n.

#[global] Instance row_modules : ModuleLibrary := {|
  Mod := Ring * nat * list (list Z);
  Vector := list Z;
  FreeModule R n :=
    match n with
    | None => Raise TypeError
    | Some k =>
        if decide (0 <= k)%Z
        then Ok (R, Z.to_nat k, (fun i => unit_row (Z.to_nat k) i) <$> seq 0 (Z.to_nat k))
        else Raise ValueError
    end;
  change_ring M R := Ok (R, M.1.2, M.2);
  module_zero M := replicate M.1.2 0%Z;
  subspace M gens :=
    if forallb (fun g => bool_decide (length g = M.1.2)) gens
    then Ok (M.1.1, M.1.2, gens)
    else Raise ArithmeticError;
  rank M := Z.of_nat (length M.2);
|}.

(** [FreeModule(QQ, 3)], the world after [L = AbelianLieAlgebra(QQ, 3)]
    was built in the empty world, and the attributes of [L]. *)
Definition QQ3 : Mod := (QQ, 3, [[1; 0; 0]; [0; 1; 0]; [0; 0; 1]]%Z).

Definition world_3 : AbelianLieAlgebra.World :=
  (AbelianLieAlgebra.__classcall_private__ QQ (Some 3%Z) None None
     AbelianLieAlgebra.empty_world).2.

Definition L3 : AbelianLieAlgebra.Instance :=
  {| AbelianLieAlgebra._M := QQ3;
     AbelianLieAlgebra._ambient := 1%positive;
     AbelianLieAlgebra._base := QQ;
     AbelianLieAlgebra._category :=
       AbelianLieAlgebra.FiniteDimensionalLieAlgebrasWithBasis QQ |}.

End Examples.

(** ** The names of constructed categories *)

Module CategoryNames.
Import CartesianProductsCategory.
Section WithNames.
Context `{H : Hierarchy}.

(** [_repr_object_names()] of the categories of the hierarchy, defined
    with them. *)
Variable named_repr_object_names : BaseCat -> string.

(** Lines 193-202, [CartesianProductsCategory._repr_object_names]:
<<
    return "Cartesian products of %s"%(self.base_category()._repr_object_names())
>> *)
Fixpoint _repr_object_names (self : Category) : string :=
  match self with
  | Named c => named_repr_object_names c
  | CartesianProductsOf base =>
      "Cartesian products of " +:+ _repr_object_names base
  end.

End WithNames.
End CategoryNames.

(** ** Sessions with abelian Lie algebras *)

Module LieSession.
Import AbelianLieAlgebra.
Section WithModules.
Context `{L : ModuleLibrary}.

(** The calls of the example that can touch the shared state. *)
Inductive Op : Type :=
(** [AbelianLieAlgebra(R, n, M, ambient)] *)
| Construct (R : Ring) (n : option Z) (M : option Mod) (ambient : option addr)
(** [self.subalgebra(gens)] *)
| Subalgebra (self : addr) (gens : list Element)
(** [self.zero()] *)
| Zero (self : addr)
(** [x._bracket_(y)] *)
| Bracket (x y : Element).

(** The state after one call, whether it returned or raised. *)
Definition perform (op : Op) (w : World) : World :=
  match op with
  | Construct R n M ambient => (__classcall_private__ R n M ambient w).2
  | Subalgebra self gens => (subalgebra self gens w).2
  | Zero self => (zero self w).2
  | Bracket x y => (_bracket_ x y w).2
  end.

(** The state after a sequence of calls. *)
Definition perform_all (ops : list Op) (w : World) : World :=
  foldl (fun w op => perform op w) w ops.

(** [w'] extends [w]: what was cached or allocated is still there,
    unchanged. *)
Definition extends (w w' : World) : Prop :=
  cache w ⊆ cache w' /\ heap w ⊆ heap w' /\ zero_cache w ⊆ zero_cache w'.

End WithModules.
End LieSession.

(** ** Elements and bases of the abelian Lie algebra *)

(** What the element methods use of vectors and of the module they live
    in; like the modules themselves this comes from [sage.modules]. *)
Class VectorLibrary `{L : ModuleLibrary} : Type := {
  (** the coefficients *)
  Coeff : Type;
  Coeff_eq_dec :: EqDecision Coeff;
  (** [R.zero()] *)
  ring_zero : Ring -> Coeff;
  (** what [M(x)] accepts besides vectors *)
  Datum : Type;
  (** a vector handed to [M(x)] *)
  of_vector : Vector -> Datum;
  (** [M(x)] *)
  module_call : Mod -> Datum -> Result Vector;
  (** [M.basis()] *)
  module_basis : Mod -> list Vector;
  (** [v.iteritems()] *)
  iteritems : Vector -> list (Z * Coeff);
  (** [v.__getitem__(i)] *)
  getitem : Vector -> Z -> Result Coeff;
}.

Module AbelianLieAlgebraElements.
Import AbelianLieAlgebra.
Section WithVectors.
Context `{V : VectorLibrary}.

Notation "'do!' x ':=' m 'in' k" := (st_bind m (fun x => k))
  (at level 10, x name, m at level 100, k at level 200, only parsing).

(** The argument of [_element_constructor_]: an element of some abelian
    Lie algebra, or anything else. *)
Inductive Arg : Type :=
| AnElement (x : Element)
| Other (x : Datum).

(** Lines 115-137.
<<
    if isinstance(x, AbelianLieAlgebra.Element):
        x = x.value
    return self.element_class(self, self._M(x))
>> *)
Definition _element_constructor_ (self : addr) (x : Arg) : St Element :=
  let x :=
    match x with
    | AnElement x => of_vector (value x)
    | Other x => x
    end in
  do! inst := deref self in
  do! v := of_result (module_call (_M inst) x) in
  ret {| parent := self; value := v |}.

(** Lines 201-213.
<<
    d = {i: self.element_class(self, b)
         for i,b in enumerate(self._M.basis())}
    return Family(d)
>>
    The family is kept as the list of its items, by index. *)
Definition basis (self : addr) : St (list (nat * Element)) :=
  do! inst := deref self in
  ret (imap (fun i b => (i, {| parent := self; value := b |}))
            (module_basis (_M inst))).

(** Line 215: [lie_algebra_generators = basis]. *)
Definition lie_algebra_generators : addr -> St (list (nat * Element)) := basis.

(** Lines 217-227: [return tuple(self._M.basis())]. *)
Definition gens (self : addr) : St (list Vector) :=
  do! inst := deref self in
  ret (module_basis (_M inst)).

(** Lines 250-267, [Element.__iter__], as the list of what it yields.
<<
    zero = self.parent().base_ring().zero()
    for i, c in self.value.iteritems():
        if c != zero:
            yield (i, c)
>> *)
Definition __iter__ (self : Element) : St (list (Z * Coeff)) :=
  do! R := AbelianLieAlgebra.base_ring (parent self) in
  let zero := ring_zero R in
  ret (filter (fun ic => ic.2 <> zero) (iteritems (value self))).

(** Lines 269-284, [Element.__getitem__]:
    [return self.value.__getitem__(i)]. *)
Definition __getitem__ (self : Element) (i : Z) : Result Coeff :=
  getitem (value self) i.

End WithVectors.
End AbelianLieAlgebraElements.

(** ** The fixture of [conftest.py] *)

Module Conftest.

(** The values a namespace can hold, as far as the fixture tells them
    apart: a module, a reference to a dictionary, anything else. *)
Inductive PyVal : Type :=
| VModule (name : string)
| VDict (ref : positive)
| VOther (repr : string).

#[global] Instance PyVal_eq_dec : EqDecision PyVal.
Proof. solve_decision. Defined.

(** Lines 14-19. *)
Definition collect_ignore : list string :=
  [ "sage/libs/gap/test_long.py";
    "sage/structure/test_factory.py";
    "sage/misc/nested_class_test.py";
    "sage/repl/rich_output/backend_test.py" ].

(** [locals()] at line 30: the parameter [doctest_namespace], which
    refers to the dictionary it was called with, and the name [sage] that
    [import sage.all] binds to the top-level package. *)
Definition locals (doctest_namespace : positive) : gmap string PyVal :=
  {[ "doctest_namespace" := VDict doctest_namespace;
     "sage" := VModule "sage" ]}.

(** [d.update] with keyword arguments [kw]: every key of [kw] is set in
    [d]. *)
Definition update (d kw : gmap string PyVal) : gmap string PyVal := kw ∪ d.

(** Lines 22-30, [add_imports].  Dictionaries are shared objects and live
    in a store; [import_sage_all] is the outcome of [import sage.all].
<<
    import sage.all
    doctest_namespace.update( **locals())
>> *)
Definition add_imports (import_sage_all : Result unit)
    (doctest_namespace : positive)
    (store : gmap positive (gmap string PyVal))
    : Result unit * gmap positive (gmap string PyVal) :=
  match import_sage_all with
  | Raise e => (Raise e, store)
  | Ok _ =>
      match store !! doctest_namespace with
      | None => (Raise ReferenceError, store)
      | Some d =>
          (Ok tt, <[doctest_namespace := update d (locals doctest_namespace)]> store)
      end
  end.

End Conftest.

(** ** Further instances, for evaluation *)

Module MoreExamples.
Import AbelianLieAlgebra AbelianLieAlgebraElements Examples.

(** Vectors as rows of integers: items by position, a module accepts the
    rows of its degree, and an integer [0] stands for the zero row. *)
#[global] Instance row_vectors : VectorLibrary (L := row_modules) := {|
  Coeff := Z;
  ring_zero _ := 0%Z;
  Datum := (list Z + Z)%type;
  of_vector v := inl v;
  module_call M x :=
    match x with
    | inl v => if decide (length v = M.1.2) then Ok v else Raise TypeError
    | inr z => if decide (z = 0%Z) then Ok (replicate M.1.2 0%Z) else Raise TypeError
    end;
  module_basis M := M.2;
  iteritems v := imap (fun i c => (Z.of_nat i, c)) v;
  getitem v i :=
    match (if decide (0 <= i)%Z then v !! Z.to_nat i else None) with
    | Some c => Ok c
    | None => Raise ValueError
    end;
|}.

(** A wrapper that rejects foreign objects, turns containers into
    enumerated sets and returns parents as they are, with a generic path
    that builds the product in [Sets().CartesianProducts()]; the world
    counts the calls. *)
Definition picky_handle (c : CartesianProductFunctor.Call) (w : nat)
    : Result CartesianProductFunctor.PyObj * nat :=
  match c with
  | CartesianProductFunctor.Sets_call (CartesianProductFunctor.Foreign _) =>
      (Raise TypeError, S w)
  | CartesianProductFunctor.Sets_call (CartesianProductFunctor.Container _ items) =>
      (Ok (CartesianProductFunctor.ParentObj "FiniteEnumeratedSet" items
             (doc FiniteEnumeratedSets)), S w)
  | CartesianProductFunctor.Sets_call a => (Ok a, S w)
  | CartesianProductFunctor.super_call args =>
      (Ok (CartesianProductFunctor.CartesianProduct args
             (CartesianProductsCategory.CartesianProductsOf (doc SetsCat))), S w)
  end.

(** A wrapper as a function, and the handler without state it gives. *)
Definition as_enumerated_set (a : CartesianProductFunctor.PyObj)
    : CartesianProductFunctor.PyObj :=
  match a with
  | CartesianProductFunctor.Container _ items =>
      CartesianProductFunctor.ParentObj "FiniteEnumeratedSet" items
        (doc FiniteEnumeratedSets)
  | _ => a
  end.

Definition stateless_handle (c : CartesianProductFunctor.Call) (w : unit)
    : Result CartesianProductFunctor.PyObj * unit :=
  match c with
  | CartesianProductFunctor.Sets_call a => (Ok (as_enumerated_set a), w)
  | CartesianProductFunctor.super_call args =>
      (Ok (CartesianProductFunctor.CartesianProduct args
             (CartesianProductsCategory.CartesianProductsOf (doc SetsCat))), w)
  end.

(** An object that is neither a container nor category-aware. *)
Definition an_object : CartesianProductFunctor.PyObj :=
  CartesianProductFunctor.Foreign "object".

(** The object names of the categories of the docstrings. *)
Definition doc_names (c : DocCat) : string :=
  match c with
  | Objects => "objects"
  | SetsWithPartialMaps => "sets with partial maps"
  | SetsCat => "sets"
  | Magmas => "magmas"
  | UnitalMagmas => "unital magmas"
  | Semigroups => "semigroups"
  | Monoids => "monoids"
  | FiniteEnumeratedSets => "finite enumerated sets"
  | Algebras R => "algebras over " +:+ match R with ring_of name => name end
  end.

(** [2*a + b] and [b + c] of the docstrings, [2*a - c] (line 260), and a
    vector of the wrong length. *)
Definition two_a_plus_b : Element := {| parent := 1%positive; value := [2; 1; 0]%Z |}.
Definition b_plus_c : Element := {| parent := 1%positive; value := [0; 1; 1]%Z |}.
Definition two_a_minus_c : Element := {| parent := 1%positive; value := [2; 0; -1]%Z |}.
Definition too_short : Element := {| parent := 1%positive; value := [1; 2]%Z |}.

(** The worlds after [S = L.subalgebra([2*a + b, b + c])] and then
    [T = S.subalgebra([b + c])]. *)
Definition world_3S : World :=
  (subalgebra 1%positive [two_a_plus_b; b_plus_c] world_3).2.
Definition world_3T : World :=
  (subalgebra 2%positive [b_plus_c] world_3S).2.

(** A store with one namespace that already binds ["sage"] and ["ZZ"]. *)
Definition a_namespace : gmap string Conftest.PyVal :=
  {[ "sage" := Conftest.VOther "1"; "ZZ" := Conftest.VOther "Integer Ring" ]}.

End MoreExamples.
(** * Properties *)

(** ** Constructed categories *)

Section CategoryFacts.
Import CartesianProductsCategory.
Context `{H : Hierarchy}.

Lemma CartesianProducts_is_constructed (C D : Category) :
  CartesianProducts C = Ok D -> exists base, D = CartesianProductsOf base.
Proof.
  destruct C as [c|base]; simpl.
  - unfold category_of. destruct (declares_CartesianProducts c); [|discriminate].
    intros [= <-]. by eexists.
  - intros [= <-]. by eexists.
Qed.

Lemma CartesianProducts_fixed (C D : Category) :
  CartesianProducts C = Ok D -> CartesianProducts D = Ok D.
Proof.
  intros HD. destruct (CartesianProducts_is_constructed _ _ HD) as [base ->].
  reflexivity.
Qed.




Lemma reaches_sound `{EqDecision BaseCat} (fuel : nat) (a b : Category) :
  reaches fuel a b = true -> is_subcategory a b.
Proof.
  revert a. induction fuel as [|fuel IH]; intros a; simpl.
  - rewrite orb_false_r. intros ->%bool_decide_eq_true. apply rtc_refl.
  - intros [->%bool_decide_eq_true|Hex]%orb_true_iff; [apply rtc_refl|].
    apply existsb_exists in Hex as (c & Hc%list_elem_of_In & Hcb).
    apply rtc_l with c; [exact Hc | by apply IH].
Qed.

(** [base_ring] of a constructed category, as the method body reads:
    through [base_category()]. *)
Lemma base_ring_unfold (self : Category) :
  is_Ok (base_category self) = true ->
  base_ring self = result_bind (base_category self) base_ring.
Proof. by destruct self. Qed.

(** C3.  Building the construction of a constructed category changes
    nothing: the accessor [CartesianProducts()] of an instance of
    [CartesianProductsCategory] returns that instance, and so, whenever a
    category [C] supports the construction,
    [C.CartesianProducts().CartesianProducts()] is [C.CartesianProducts()]. *)
Theorem CartesianProducts_idempotent (C D : Category) :
  CartesianProducts C = Ok D ->
  CartesianProducts D = Ok D
  /\ result_bind (CartesianProducts C) CartesianProducts = CartesianProducts C
  /\ forall base,
       CartesianProducts (CartesianProductsOf base) = Ok (CartesianProductsOf base).
Proof.
  intros HD. split; [by eapply CartesianProducts_fixed|]. split; [|done].
  rewrite HD. simpl. by eapply CartesianProducts_fixed.
Qed.

(** C7.  The base ring of a constructed category is that of the category
    it was built from: when [C] has a base ring and supports the
    construction, [C.CartesianProducts().base_ring()] is [C.base_ring()]. *)
Theorem CartesianProducts_base_ring (C D : Category) (R : Ring) :
  base_ring C = Ok R ->
  CartesianProducts C = Ok D ->
  base_ring D = Ok R
  /\ base_ring D = result_bind (base_category D) base_ring.
Proof.
  intros HR HD.
  destruct (CartesianProducts_is_constructed _ _ HD) as [base ->].
  split; [|done].
  destruct C as [c|base']; simpl in HD.
  - unfold category_of in HD.
    destruct (declares_CartesianProducts c); [|discriminate].
    by injection HD as <-.
  - by injection HD as <-.
Qed.

Section Covariance.

(** The subcategories of a category that declares the nested class
    declare it too. *)
Hypothesis declared_downwards :
  forall c d : BaseCat,
    d ∈ named_super_categories c ->
    declares_CartesianProducts d = true ->
    declares_CartesianProducts c = true.





End Covariance.
End CategoryFacts.

(** ** The functor's [__call__] *)

Section FunctorFacts.
Import CartesianProductsCategory CartesianProductFunctor.
Context `{H : Hierarchy}.

Section Runs.
Context {World : Type} (handle : Call -> World -> Result PyObj * World).

Lemma run_bind {A B} (p : Prog A) (f : A -> Prog B) (w : World) :
  run handle (bind p f) w =
  match run handle p w with
  | (Ok a, w') => run handle (f a) w'
  | (Raise e, w') => (Raise e, w')
  end.
Proof.
  revert w. induction p as [a|e|c k IH]; intros w; simpl; try done.
  destruct (handle c w) as [[x|e] w']; [apply IH | done].
Qed.

Lemma run_call (c : Call) (w : World) : run handle (call c) w = handle c w.
Proof. simpl. by destruct (handle c w) as [[x|e] w']. Qed.

Lemma calls_bind {A B} (p : Prog A) (f : A -> Prog B) (w : World) :
  calls handle (bind p f) w =
  calls handle p w ++
  match run handle p w with
  | (Ok a, w') => calls handle (f a) w'
  | (Raise _, _) => []
  end.
Proof.
  revert w. induction p as [a|e|c k IH]; intros w; simpl; try done.
  destruct (handle c w) as [[x|e] w']; [by rewrite IH | done].
Qed.

(** The comprehension calls the wrapper on the arguments in order, and
    stops at the first that raises. *)
Lemma calls_comprehension (args : list PyObj) (w : World) :
  calls handle (mapM (fun a => call (Sets_call a)) args) w
    `prefix_of` (Sets_call <$> args).
Proof.
  revert w. induction args as [|a args IH]; intros w; simpl; [done|].
  destruct (handle (Sets_call a) w) as [[x|e] w'] eqn:E; simpl.
  - apply prefix_cons. rewrite calls_bind.
    destruct (run handle _ w') as [[bs|e] w'']; simpl;
      rewrite app_nil_r; apply IH.
  - apply prefix_cons, prefix_nil.
Qed.

(** When the comprehension completes, every argument went through the
    wrapper. *)
Lemma run_comprehension (args wrapped : list PyObj) (w w' : World) :
  run handle (mapM (fun a => call (Sets_call a)) args) w = (Ok wrapped, w') ->
  calls handle (mapM (fun a => call (Sets_call a)) args) w = Sets_call <$> args
  /\ length wrapped = length args.
Proof.
  revert wrapped w. induction args as [|a args IH]; intros wrapped w; simpl.
  - by intros [= <- <-].
  - destruct (handle (Sets_call a) w) as [[x|e] w1] eqn:E; simpl; [|done].
    rewrite run_bind, calls_bind.
    destruct (run handle _ w1) as [[bs|e] w2] eqn:E2; simpl; [|done].
    intros [= <- <-]. destruct (IH _ _ E2) as [-> Hlen].
    rewrite app_nil_r. simpl. by rewrite Hlen.
Qed.

Lemma comprehension_no_generic (args : list PyObj) (w : World) (l : list PyObj) :
  super_call l ∉ calls handle (mapM (fun a => call (Sets_call a)) args) w.
Proof.
  intros Hin.
  pose proof (calls_comprehension args w) as [rest Hrest].
  assert (super_call l ∈ Sets_call <$> args) as Hin'.
  { rewrite Hrest. apply elem_of_app. by left. }
  apply list_elem_of_fmap in Hin' as [a [? _]]. discriminate.
Qed.

Lemma calls_coerce_then_generic (args : list PyObj) (w : World) :
  calls handle (coerce_then_generic args) w =
  calls handle (mapM (fun a => call (Sets_call a)) args) w ++
  match run handle (mapM (fun a => call (Sets_call a)) args) w with
  | (Ok wrapped, _) => [super_call wrapped]
  | (Raise _, _) => []
  end.
Proof.
  unfold coerce_then_generic. rewrite calls_bind.
  destruct (run handle _ w) as [[wrapped|e] w']; [|done].
  simpl. by destruct (handle _ w') as [[?|?] ?].
Qed.

Lemma run_coerce_then_generic (args : list PyObj) (w : World) :
  run handle (coerce_then_generic args) w =
  match run handle (mapM (fun a => call (Sets_call a)) args) w with
  | (Ok coerced, w') => handle (super_call coerced) w'
  | (Raise e, w') => (Raise e, w')
  end.
Proof.
  unfold coerce_then_generic. rewrite run_bind.
  destruct (run handle _ w) as [[coerced|e] w']; [|done]. apply run_call.
Qed.

End Runs.

Lemma any_native_spec (args : list PyObj) :
  any_native args = true <->
  exists a, a ∈ args /\ type a ∈ native_python_containers.
Proof.
  unfold any_native. rewrite existsb_exists. split.
  - intros [a [Hin Ha]]. exists a. split; [by apply list_elem_of_In|].
    by apply bool_decide_eq_true in Ha.
  - intros [a [Hin Ha]]. exists a. split; [by apply list_elem_of_In|].
    by apply bool_decide_eq_true.
Qed.

Lemma __call___native (args : list PyObj) :
  any_native args = true -> __call__ args = coerce_then_generic args.
Proof. unfold __call__. by intros ->. Qed.

Lemma __call___generic (args : list PyObj) :
  any_native args = false -> args <> [] ->
  __call__ args = call (super_call args).
Proof. unfold __call__. intros ->. by destruct args. Qed.

Lemma strict_subclass_not_native (ty base : PyType) :
  strict_subclass ty base = true -> ty ∉ native_python_containers.
Proof.
  destruct ty; simpl; try discriminate. intros _.
  unfold native_python_containers. intros Hin.
  repeat (apply elem_of_cons in Hin as [Hin|Hin]; [discriminate|]).
  by apply elem_of_nil in Hin.
Qed.

(** Without a plain container among the arguments no run reaches the
    wrapper. *)
Lemma not_native_no_wrapper (args : list PyObj) :
  any_native args = false -> ~ coerces args.
Proof.
  intros Hnat (World & handle & w & a & Hin).
  unfold __call__ in Hin. rewrite Hnat in Hin.
  destruct args as [|a0 args]; simpl in Hin.
  - destruct (category_of Sets); simpl in Hin;
      by apply elem_of_nil in Hin.
  - apply elem_of_cons in Hin as [?|Hin]; [discriminate|].
    destruct (handle _ w) as [[?|?] ?]; by apply elem_of_nil in Hin.
Qed.

Lemma result_mapM_Ok {A B} (f : A -> Result B) (l : list A) (bs : list B) (a : A) :
  result_mapM f l = Ok bs -> a ∈ l -> is_Ok (f a) = true.
Proof.
  revert bs. induction l as [|a0 l IH]; intros bs; simpl.
  - intros _ Hin. by apply elem_of_nil in Hin.
  - destruct (f a0) as [b|e] eqn:E; simpl; [|done].
    destruct (result_mapM f l) as [bs'|e]; simpl; [|done].
    intros _ Hin. apply elem_of_cons in Hin as [->|Hin].
    + by rewrite E.
    + by eapply IH.
Qed.

(** The part of the malformed-argument rule that the module decides by
    itself: with no plain container among the arguments, an argument
    without [category()] reaches the generic path unchanged, which rejects
    it.  (With a plain container present the argument first goes through
    the wrapper, whose answer is not fixed here.) *)
Lemma malformed_without_container {World : Type}
    (join : list Category -> Category)
    (wrap : PyObj -> World -> Result PyObj * World)
    (args : list PyObj) (a : PyObj) (w : World) :
  any_native args = false ->
  a ∈ args ->
  is_Ok (category a) = false ->
  run (handle_with join wrap) (__call__ args) w = (Raise TypeError, w)
  /\ calls (handle_with join wrap) (__call__ args) w = [super_call args].
Proof.
  intros Hnat Hin Hcat.
  assert (args <> []) as Hne by (intros ->; by apply elem_of_nil in Hin).
  rewrite (__call___generic _ Hnat Hne). rewrite run_call. simpl.
  unfold generic_apply.
  destruct (result_mapM category args) as [cats|e] eqn:E; [|done].
  pose proof (result_mapM_Ok _ _ _ _ E Hin) as Hok. congruence.
Qed.

(** C1.  The empty product short-circuits.  Whatever the collaborators
    and the state they have built up, [cartesian_product([])] returns,
    without calling either of them (in particular not the generic path), a
    Cartesian product object over the empty tuple whose category is
    [Sets().CartesianProducts()]; the state is left as it was. *)
Theorem empty_product_short_circuit (cat : Category) (World : Type)
    (handle : Call -> World -> Result PyObj * World) (w : World) :
  CartesianProducts (Named Sets) = Ok cat ->
  exists C,
    run handle (__call__ []) w = (Ok C, w)
    /\ C = CartesianProduct [] cat
    /\ category C = CartesianProducts (Named Sets)
    /\ _sets C = Ok []
    /\ calls handle (__call__ []) w = [].
Proof.
  intros Hcat. exists (CartesianProduct [] cat).
  change (__call__ []) with
    (bind (lift (CartesianProducts (Named Sets)))
          (fun cat => Ret (CartesianProduct [] cat))).
  rewrite Hcat. by repeat split.
Qed.


(** C8.  Coercion is triggered by exact type membership.  [__call__]
    reaches the wrapper if and only if the type of some argument is one of
    [tuple], [list], [set], [frozenset]; arguments whose types are strict
    subclasses do not trigger it; and when it is triggered the wrapper is
    called on the arguments in order, category-aware or not: the first
    calls of a run are wrapper calls on a prefix of [args], and whenever
    the generic path is reached, the calls before it are exactly the
    wrapper calls on all of [args]. *)
Theorem coercion_exact_type (args : list PyObj) :
  (coerces args <-> exists a, a ∈ args /\ type a ∈ native_python_containers)
  /\ ((forall a, a ∈ args -> exists base, strict_subclass (type a) base = true) ->
      ~ coerces args)
  /\ ((exists a, a ∈ args /\ type a ∈ native_python_containers) ->
      __call__ args = coerce_then_generic args
      /\ forall (World : Type) (handle : Call -> World -> Result PyObj * World)
           (w : World),
           take (length args) (calls handle (__call__ args) w)
             `prefix_of` (Sets_call <$> args)
           /\ forall wrapped,
                super_call wrapped ∈ calls handle (__call__ args) w ->
                calls handle (__call__ args) w =
                  (Sets_call <$> args) ++ [super_call wrapped]
                /\ length wrapped = length args).
Proof.
  split; [|split].
  - split.
    + intros Hco. apply any_native_spec.
      destruct (any_native args) eqn:E; [done|].
      by destruct (not_native_no_wrapper _ E).
    + intros Hnat%any_native_spec.
      exists unit, (fun _ _ => (Raise TypeError, tt)), tt.
      rewrite (__call___native _ Hnat).
      destruct args as [|a0 args]; [discriminate|].
      exists a0. simpl. apply elem_of_cons. by left.
  - intros Hsub. apply not_native_no_wrapper.
    destruct (any_native args) eqn:E; [|done].
    apply any_native_spec in E as (a & Hin & Hty).
    destruct (Hsub a Hin) as [base Hbase].
    by destruct (strict_subclass_not_native _ _ Hbase).
  - intros Hnat%any_native_spec.
    rewrite (__call___native _ Hnat). split; [done|].
    intros World handle w. rewrite calls_coerce_then_generic. split.
    + destruct (run handle _ w) as [[wrapped|e] w'] eqn:E.
      * destruct (run_comprehension _ _ _ _ _ E) as [-> _].
        rewrite take_app_length'; [done|]. by rewrite length_fmap.
      * rewrite app_nil_r.
        etrans; [apply prefix_take|apply calls_comprehension].
    + intros wrapped Hin. apply elem_of_app in Hin as [Hin|Hin].
      { by destruct (comprehension_no_generic handle args w wrapped). }
      destruct (run handle _ w) as [[wrapped'|e] w'] eqn:E.
      * apply list_elem_of_singleton in Hin. injection Hin as ->.
        destruct (run_comprehension _ _ _ _ _ E) as [-> Hlen]. done.
      * by apply elem_of_nil in Hin.
Qed.

End FunctorFacts.

(** ** The abelian Lie algebra *)

Section LieFacts.
Import AbelianLieAlgebra.
Context `{L : ModuleLibrary}.

Lemma fresh_not_allocated (w : World) (self : addr) (inst : Instance) :
  heap w !! self = Some inst -> self <> fresh (dom (heap w)).
Proof.
  intros Hself ->.
  apply (is_fresh (dom (heap w))). apply elem_of_dom. by eexists.
Qed.

(** A cached key is answered from the cache, and nothing changes. *)
Lemma __classcall___hit (R : Ring) (n : option Z) (M : Mod) (amb : option addr)
    (w : World) (self : addr) :
  cache w !! (R, n, M, amb) = Some self ->
  __classcall__ R n M amb w = (Ok self, w).
Proof. unfold __classcall__. by intros ->. Qed.

(** A call always returns, and afterwards the key is cached. *)
Lemma __classcall___returns (R : Ring) (n : option Z) (M : Mod) (amb : option addr)
    (w : World) :
  exists self w',
    __classcall__ R n M amb w = (Ok self, w')
    /\ cache w' !! (R, n, M, amb) = Some self.
Proof.
  unfold __classcall__.
  destruct (cache w !! (R, n, M, amb)) as [self|] eqn:E.
  - by exists self, w.
  - eexists _, _. split; [done|]. simpl. apply lookup_insert_eq.
Qed.

(** Existing instances are left as they are. *)
Lemma __classcall___heap (R : Ring) (n : option Z) (M : Mod) (amb : option addr)
    (w w' : World) (self other : addr) (inst : Instance) :
  __classcall__ R n M amb w = (Ok self, w') ->
  heap w !! other = Some inst ->
  heap w' !! other = Some inst.
Proof.
  unfold __classcall__.
  destruct (cache w !! (R, n, M, amb)) as [a|] eqn:E.
  - by intros [= <- <-].
  - intros [= <- <-] Hother. simpl.
    rewrite lookup_insert_ne; [done|].
    intros Heq. by eapply fresh_not_allocated.
Qed.

(** Existing cache entries are kept. *)
Lemma __classcall___cache (R : Ring) (n : option Z) (M : Mod) (amb : option addr)
    (w w' : World) (self other : addr) (k : Key) :
  __classcall__ R n M amb w = (Ok self, w') ->
  cache w !! k = Some other ->
  cache w' !! k = Some other.
Proof.
  unfold __classcall__.
  destruct (cache w !! (R, n, M, amb)) as [a|] eqn:E.
  - by intros [= <- <-].
  - intros [= <- <-] Hk. simpl.
    rewrite lookup_insert_ne; [done|]. intros <-. congruence.
Qed.

Lemma cache_consistent_empty : cache_consistent empty_world.
Proof. intros R n M amb self. simpl. by rewrite lookup_empty. Qed.

Lemma __classcall___consistent (R : Ring) (n : option Z) (M : Mod)
    (amb : option addr) (w w' : World) (self : addr) :
  cache_consistent w ->
  __classcall__ R n M amb w = (Ok self, w') ->
  cache_consistent w'.
Proof.
  intros Hw. unfold __classcall__.
  destruct (cache w !! (R, n, M, amb)) as [a|] eqn:E.
  - by intros [= <- <-].
  - intros [= <- <-] R' n' M' amb' a'. simpl.
    destruct (decide ((R, n, M, amb) = (R', n', M', amb'))) as [Heq|Hne].
    + injection Heq as <- <- <- <-.
      rewrite lookup_insert_eq. intros [= <-]. by rewrite lookup_insert_eq.
    + rewrite lookup_insert_ne; [|done]. intros Ha'.
      pose proof (Hw _ _ _ _ _ Ha') as Hheap.
      rewrite lookup_insert_ne; [done|].
      intros Heq. by eapply fresh_not_allocated.
Qed.

Lemma __classcall_private___consistent (R : Ring) (n : option Z)
    (M : option Mod) (amb : option addr) (w : World) :
  cache_consistent w ->
  cache_consistent (__classcall_private__ R n M amb w).2.
Proof.
  intros Hw. unfold __classcall_private__, st_bind, of_result.
  destruct (normalized_M R n M) as [M'|e]; simpl; [|done].
  destruct (__classcall___returns R None M' amb w) as (self & w' & Hcall & _).
  rewrite Hcall. simpl. by eapply __classcall___consistent.
Qed.

(** What the instance returned for a key looks like. *)
Lemma __classcall___instance (R : Ring) (n : option Z) (M : Mod)
    (amb : option addr) (w w' : World) (self : addr) :
  cache_consistent w ->
  __classcall__ R n M amb w = (Ok self, w') ->
  heap w' !! self = Some (__init__ self R n M amb).
Proof.
  intros Hw Hcall.
  pose proof (__classcall___consistent _ _ _ _ _ _ _ Hw Hcall) as Hw'.
  apply Hw'.
  destruct (__classcall___returns R n M amb w) as (a & w1 & Hcall' & Hc).
  rewrite Hcall in Hcall'. by injection Hcall' as -> ->.
Qed.

Lemma __classcall_private___unfold (R : Ring) (n : option Z) (M : option Mod)
    (amb : option addr) (M' : Mod) (w : World) :
  normalized_M R n M = Ok M' ->
  __classcall_private__ R n M amb w = __classcall__ R None M' amb w.
Proof.
  intros HM. unfold __classcall_private__, st_bind, of_result. by rewrite HM.
Qed.


Lemma normalized_args_inv (R : Ring) (n : option Z) (M : option Mod)
    (amb : option addr) (k : Key) :
  normalized_args R n M amb = Ok k ->
  exists M', normalized_M R n M = Ok M' /\ k = (R, None, M', amb).
Proof.
  unfold normalized_args, result_map.
  destruct (normalized_M R n M) as [M'|e]; simpl; [|done].
  intros [= <-]. by exists M'.
Qed.


Lemma zero_cached (self : addr) (w w' : World) (z : Element) :
  zero self w = (Ok z, w') -> zero self w' = (Ok z, w').
Proof.
  unfold zero.
  destruct (zero_cache w !! self) as [z0|] eqn:E.
  - intros [= <- <-]. by rewrite E.
  - destruct (heap w !! self) as [inst|]; [|done].
    intros [= <- <-]. simpl. by rewrite lookup_insert_eq.
Qed.

Lemma zero_returns (self : addr) (inst : Instance) (w : World) :
  heap w !! self = Some inst ->
  exists z w', zero self w = (Ok z, w')
    /\ heap w' = heap w /\ cache w' = cache w
    /\ (zero_cache w !! self = None ->
        z = {| parent := self; value := module_zero (_M inst) |}).
Proof.
  intros Hself. unfold zero.
  destruct (zero_cache w !! self) as [z0|] eqn:E.
  - by exists z0, w.
  - rewrite Hself. by eexists _, _.
Qed.

Lemma deref_live (self : addr) (inst : Instance) (w : World) :
  heap w !! self = Some inst -> deref self w = (Ok inst, w).
Proof. unfold deref. by intros ->. Qed.

Lemma ambient_live (self : addr) (inst : Instance) (w : World) :
  heap w !! self = Some inst -> ambient self w = (Ok (_ambient inst), w).
Proof. intros Hs. unfold ambient, st_bind. by rewrite (deref_live _ _ _ Hs). Qed.

Lemma base_ring_live (self : addr) (inst : Instance) (w : World) :
  heap w !! self = Some inst -> base_ring self w = (Ok (_base inst), w).
Proof. intros Hs. unfold base_ring, st_bind. by rewrite (deref_live _ _ _ Hs). Qed.

Lemma subalgebra_unfold (self : addr) (inst : Instance) (gens : list Element)
    (N N' : Mod) (w : World) :
  heap w !! self = Some inst ->
  subspace (_M inst) (value <$> gens) = Ok N ->
  change_ring N (_base inst) = Ok N' ->
  subalgebra self gens w =
  __classcall__ (_base inst) None N' (Some (_ambient inst)) w.
Proof.
  intros Hs HN HN'. unfold subalgebra, st_bind.
  rewrite (deref_live _ _ _ Hs). unfold of_result at 1. rewrite HN.
  rewrite (base_ring_live _ _ _ Hs).
  by apply __classcall_private___unfold.
Qed.

(** The constructor leaves the cache of [zero] alone. *)
Lemma __classcall___zero_cache (R : Ring) (n : option Z) (M : Mod)
    (amb : option addr) (w w' : World) (self : addr) :
  __classcall__ R n M amb w = (Ok self, w') ->
  zero_cache w' = zero_cache w.
Proof.
  unfold __classcall__.
  destruct (cache w !! (R, n, M, amb)) as [a|]; by intros [= <- <-].
Qed.

Section UniqueRepresentation.

(** What the docstring of [__classcall_private__] (lines 58-62) relies on:
    [FreeModule(R, k)] exists for a nonnegative rank [k], and changing its
    ring to its own base ring gives the same module. *)
Hypothesis FreeModule_nonnegative :
  forall (R : Ring) (k : Z), (0 <= k)%Z -> is_Ok (FreeModule R (Some k)) = true.
Hypothesis change_ring_own :
  forall (R : Ring) (k : Z) (M : Mod),
    FreeModule R (Some k) = Ok M -> change_ring M R = Ok M.


End UniqueRepresentation.

(** C9.  The bracket is constantly zero.  For an element [x] of an abelian
    Lie algebra [Lie] and any [y], [x._bracket_(y)] returns what
    [Lie.zero()] returns, from the same state and also when [Lie.zero()]
    is called afterwards; unless something else was remembered for [zero],
    that is the element of [Lie] over the zero vector of its module. *)
Theorem bracket_is_zero (w : World) (Lie : addr) (inst : Instance)
    (x y : Element) :
  heap w !! Lie = Some inst ->
  parent x = Lie ->
  exists (z : Element) (w' : World),
    _bracket_ x y w = (Ok z, w')
    /\ zero Lie w = (Ok z, w')
    /\ zero Lie w' = (Ok z, w')
    /\ _bracket_ x y w' = (Ok z, w')
    /\ (zero_cache w !! Lie = None ->
        z = {| parent := Lie; value := module_zero (_M inst) |}).
Proof.
  intros HLie <-. unfold _bracket_.
  destruct (zero_returns _ _ _ HLie) as (z & w' & Hz & _ & _ & Hval).
  exists z, w'. repeat split; try done; by eapply zero_cached.
Qed.

(** C10.  [subalgebra] keeps the ambient algebra and the base ring.  For a
    live instance [Lie] and generators [gens] whose span exists,
    [S = Lie.subalgebra(gens)] returns, [S.ambient()] is [Lie.ambient()]
    (which is [Lie] itself when [Lie] is its own ambient),
    [S.base_ring()] is [Lie.base_ring()], and [Lie] is as it was. *)
Theorem subalgebra_preserves_ambient_and_base_ring (w : World) (Lie : addr)
    (inst : Instance) (gens : list Element) (N N' : Mod) :
  cache_consistent w ->
  heap w !! Lie = Some inst ->
  subspace (_M inst) (value <$> gens) = Ok N ->
  change_ring N (_base inst) = Ok N' ->
  exists (S : addr) (w' : World),
    subalgebra Lie gens w = (Ok S, w')
    /\ (ambient S w').1 = (ambient Lie w').1
    /\ (ambient Lie w').1 = (ambient Lie w).1
    /\ (ambient S w').1 = Ok (_ambient inst)
    /\ (_ambient inst = Lie -> (ambient S w').1 = Ok Lie)
    /\ (AbelianLieAlgebra.base_ring S w').1 = (AbelianLieAlgebra.base_ring Lie w').1
    /\ (AbelianLieAlgebra.base_ring S w').1 = Ok (_base inst)
    /\ heap w' !! Lie = Some inst
    /\ zero_cache w' = zero_cache w
    /\ cache_consistent w'.
Proof.
  intros Hw HLie HN HN'.
  rewrite (subalgebra_unfold _ _ _ _ _ _ HLie HN HN').
  destruct (__classcall___returns (_base inst) None N' (Some (_ambient inst)) w)
    as (S & w' & Hcall & _).
  exists S, w'.
  pose proof (__classcall___instance _ _ _ _ _ _ _ Hw Hcall) as HS.
  pose proof (__classcall___heap _ _ _ _ _ _ _ _ _ Hcall HLie) as HLie'.
  rewrite (ambient_live _ _ _ HS), (ambient_live _ _ _ HLie'),
    (ambient_live _ _ _ HLie), (base_ring_live _ _ _ HS),
    (base_ring_live _ _ _ HLie').
  simpl. repeat split; try done.
  - by intros ->.
  - by eapply __classcall___zero_cache.
  - by eapply __classcall___consistent.
Qed.

End LieFacts.

(** ** The properties at concrete inputs *)

Section AtTheDocstringHierarchy.
Import CartesianProductsCategory CartesianProductFunctor Examples.



(** The categories the docstring lists for a Cartesian product of monoids
    (lines 80-90) are above [Monoids().CartesianProducts()]. *)
Example categories_of_a_product_of_monoids :
  Forall (is_subcategory (CartesianProductsOf (doc Monoids)))
    [ CartesianProductsOf (doc Monoids); doc Monoids;
      CartesianProductsOf (doc Semigroups); doc Semigroups;
      CartesianProductsOf (doc Magmas); doc UnitalMagmas; doc Magmas;
      CartesianProductsOf (doc SetsCat); doc SetsCat;
      doc SetsWithPartialMaps; doc Objects ].
Proof. repeat constructor; by apply (reaches_sound 6). Qed.

(** [Sets().CartesianProducts().base_category()] (lines 182-186). *)
Example base_category_of_products_of_sets :
  result_bind (CartesianProducts (doc SetsCat)) base_category = Ok (doc SetsCat).
Proof. reflexivity. Qed.

(** [Monoids().CartesianProducts().CartesianProducts()] *)
Lemma CartesianProducts_idempotent_witness :
  CartesianProducts (doc Monoids) = Ok (CartesianProductsOf (doc Monoids))
  /\ CartesianProducts (CartesianProductsOf (doc Monoids))
     = Ok (CartesianProductsOf (doc Monoids)).
Proof.
  split; [reflexivity|].
  apply (CartesianProducts_idempotent (doc Monoids)
           (CartesianProductsOf (doc Monoids))).
  reflexivity.
Defined.

(** [Algebras(ZZ).CartesianProducts().base_ring()], the docstring's
    example (line 226). *)
Lemma CartesianProducts_base_ring_witness :
  base_ring (doc (Algebras ZZ)) = Ok ZZ
  /\ base_ring (CartesianProductsOf (doc (Algebras ZZ))) = Ok ZZ.
Proof.
  split; [reflexivity|].
  apply (CartesianProducts_base_ring (doc (Algebras ZZ))
           (CartesianProductsOf (doc (Algebras ZZ))) ZZ);
    reflexivity.
Defined.


(** [cartesian_product([])] after three earlier calls. *)
Lemma empty_product_short_circuit_witness :
  let earlier := [Sets_call list_0_1; Sets_call tuple_a_b_c; super_call []] in
  exists C,
    run recording_handle (__call__ []) earlier = (Ok C, earlier)
    /\ C = CartesianProduct [] (CartesianProductsOf (doc SetsCat))
    /\ category C = CartesianProducts (doc SetsCat)
    /\ _sets C = Ok []
    /\ calls recording_handle (__call__ []) earlier = [].
Proof.
  intros earlier.
  apply (empty_product_short_circuit
           (CartesianProductsOf (doc SetsCat)) (list Call)
           recording_handle earlier).
  reflexivity.
Defined.


(** An instance of a class derived from [list] does not trigger the
    coercion; a list does, also for the monoid next to it. *)
Lemma coercion_exact_type_witness :
  ~ coerces [my_list_0_1; a_monoid]
  /\ coerces [list_0_1; a_monoid]
  /\ __call__ [list_0_1; a_monoid] = coerce_then_generic [list_0_1; a_monoid].
Proof.
  split; [|split].
  - destruct (coercion_exact_type [my_list_0_1; a_monoid]) as ([Hco _] & _ & _).
    intros (a & Ha & Hty)%Hco.
    apply elem_of_cons in Ha as [->|Ha].
    + simpl in Hty. unfold native_python_containers in Hty.
      repeat (apply elem_of_cons in Hty as [Hty|Hty]; [discriminate|]).
      by apply elem_of_nil in Hty.
    + apply list_elem_of_singleton in Ha as ->.
      simpl in Hty. unfold native_python_containers in Hty.
      repeat (apply elem_of_cons in Hty as [Hty|Hty]; [discriminate|]).
      by apply elem_of_nil in Hty.
  - apply (coercion_exact_type [list_0_1; a_monoid]).
    exists list_0_1. split; [apply elem_of_cons; by left|].
    simpl. unfold native_python_containers.
    apply elem_of_cons. right. apply elem_of_cons. by left.
  - apply (coercion_exact_type [list_0_1; a_monoid]).
    exists list_0_1. split; [apply elem_of_cons; by left|].
    simpl. unfold native_python_containers.
    apply elem_of_cons. right. apply elem_of_cons. by left.
Defined.

End AtTheDocstringHierarchy.

Section AtRowModules.
Import AbelianLieAlgebra Examples.



Lemma world_3_consistent : cache_consistent world_3.
Proof. apply __classcall_private___consistent, cache_consistent_empty. Qed.

(** [AbelianLieAlgebra(QQ, 2) is AbelianLieAlgebra(ZZ, 2)] and
    [AbelianLieAlgebra(QQ, 0) is AbelianLieAlgebra(QQ, 1)] are false
    (lines 64-72). *)
Example different_arguments_different_instances :
  let run4 :=
    st_bind (__classcall_private__ QQ (Some 2%Z) None None) (fun A1 =>
    st_bind (__classcall_private__ ZZ (Some 2%Z) None None) (fun A2 =>
    st_bind (__classcall_private__ QQ (Some 0%Z) None None) (fun A3 =>
    st_bind (__classcall_private__ QQ (Some 1%Z) None None) (fun A4 =>
    ret (A1, A2, A3, A4))))) in
  (run4 empty_world).1 = Ok (1, 2, 3, 4)%positive.
Proof. reflexivity. Qed.


(** [a.bracket(c)] in the three-dimensional example (line 294). *)
Lemma bracket_is_zero_witness :
  let a := {| parent := 1%positive; value := [1; 0; 0]%Z |} in
  let c := {| parent := 1%positive; value := [0; 0; 1]%Z |} in
  exists (z : Element) (w' : World),
    _bracket_ a c world_3 = (Ok z, w')
    /\ zero 1%positive world_3 = (Ok z, w')
    /\ z = {| parent := 1%positive; value := [0; 0; 0]%Z |}.
Proof.
  intros a c.
  destruct (bracket_is_zero world_3 1%positive
              L3
              a c)
    as (z & w' & Hb & Hz & _ & _ & Hval).
  - reflexivity.
  - reflexivity.
  - exists z, w'. split; [exact Hb|]. split; [exact Hz|].
    rewrite Hval; reflexivity.
Defined.

(** [L.subalgebra([2*a + b, b + c])] in the three-dimensional example
    (line 191). *)
Lemma subalgebra_preserves_ambient_and_base_ring_witness :
  let gens := [ {| parent := 1%positive; value := [2; 1; 0]%Z |};
                {| parent := 1%positive; value := [0; 1; 1]%Z |} ] in
  exists (S : addr) (w' : World),
    subalgebra 1%positive gens world_3 = (Ok S, w')
    /\ (ambient S w').1 = Ok 1%positive
    /\ (AbelianLieAlgebra.base_ring S w').1 = Ok QQ
    /\ heap w' !! 1%positive = Some L3.
Proof.
  intros gens.
  destruct (subalgebra_preserves_ambient_and_base_ring world_3 1%positive
              L3
              gens
              (QQ, 3, [[2; 1; 0]; [0; 1; 1]]%Z)
              (QQ, 3, [[2; 1; 0]; [0; 1; 1]]%Z))
    as (S & w' & Hs & _ & _ & _ & Hamb & _ & Hbase & Hheap & _ & _).
  - exact world_3_consistent.
  - reflexivity.
  - reflexivity.
  - reflexivity.
  - exists S, w'. split; [exact Hs|]. split; [by apply Hamb|].
    split; [exact Hbase|]. exact Hheap.
Defined.

End AtRowModules.

(** * Further properties *)

(** ** More on the functor's [__call__] *)

Section MoreFunctorFacts.
Import CartesianProductsCategory CartesianProductFunctor.
Context `{H : Hierarchy}.

Section Runs.
Context {World : Type} (handle : Call -> World -> Result PyObj * World).

Lemma run_comprehension_app (l1 l2 xs : list PyObj) (w w1 : World) :
  run handle (mapM (fun a => call (Sets_call a)) l1) w = (Ok xs, w1) ->
  run handle (mapM (fun a => call (Sets_call a)) (l1 ++ l2)) w =
  match run handle (mapM (fun a => call (Sets_call a)) l2) w1 with
  | (Ok ys, w2) => (Ok (xs ++ ys), w2)
  | (Raise e, w2) => (Raise e, w2)
  end.
Proof.
  revert xs w. induction l1 as [|a l1 IH]; intros xs w; simpl.
  - intros [= <- <-]. by destruct (run handle _ w) as [[ys|e] w2].
  - destruct (handle (Sets_call a) w) as [[x|e] w'] eqn:E; simpl; [|done].
    rewrite !run_bind.
    destruct (run handle (mapM _ l1) w') as [[xs'|e] w''] eqn:E1; simpl; [|done].
    intros [= <- <-]. rewrite (IH _ _ E1).
    by destruct (run handle (mapM _ l2) w'') as [[ys|e] w2].
Qed.

Lemma calls_comprehension_app (l1 l2 xs : list PyObj) (w w1 : World) :
  run handle (mapM (fun a => call (Sets_call a)) l1) w = (Ok xs, w1) ->
  calls handle (mapM (fun a => call (Sets_call a)) (l1 ++ l2)) w =
  (Sets_call <$> l1) ++ calls handle (mapM (fun a => call (Sets_call a)) l2) w1.
Proof.
  revert xs w. induction l1 as [|a l1 IH]; intros xs w; simpl.
  - by intros [= <- <-].
  - destruct (handle (Sets_call a) w) as [[x|e] w'] eqn:E; simpl; [|done].
    rewrite run_bind, !calls_bind.
    destruct (run handle (mapM _ l1) w') as [[xs'|e] w''] eqn:E1; simpl; [|done].
    intros [= <- <-]. rewrite (IH _ _ E1), (run_comprehension_app _ l2 _ _ _ E1).
    destruct (run handle (mapM _ l2) w'') as [[ys|e] w2]; simpl;
      by rewrite !app_nil_r.
Qed.

(** X1.  An exception of the wrapper ends the call.  When a plain
    container is among the arguments and the wrapper, having answered for
    the arguments [before], raises [e] on the argument [a], then
    [cartesian_product] raises [e]; the arguments after [a] are never
    wrapped and the generic path is never called. *)
Theorem wrapper_exception_propagates (before after wrapped : list PyObj)
    (a : PyObj) (e : exn) (w w1 w2 : World) :
  any_native (before ++ a :: after) = true ->
  run handle (mapM (fun a => call (Sets_call a)) before) w = (Ok wrapped, w1) ->
  handle (Sets_call a) w1 = (Raise e, w2) ->
  run handle (__call__ (before ++ a :: after)) w = (Raise e, w2)
  /\ calls handle (__call__ (before ++ a :: after)) w
     = Sets_call <$> (before ++ [a]).
Proof.
  intros Hnat Hbefore Ha.
  rewrite (__call___native _ Hnat).
  rewrite run_coerce_then_generic, calls_coerce_then_generic.
  rewrite (run_comprehension_app _ (a :: after) _ _ _ Hbefore).
  rewrite (calls_comprehension_app _ (a :: after) _ _ _ Hbefore).
  simpl. rewrite Ha. simpl. split; [done|].
  by rewrite app_nil_r, fmap_app.
Qed.

(** X2.  In every run the calls are wrapper calls on an initial segment
    of the arguments, followed by at most one call of the generic path:
    the generic path is called at most once, as the last call, and there
    are never more than [len(args) + 1] calls. *)
Theorem generic_path_at_most_once_and_last (args : list PyObj) (w : World) :
  exists (k : nat) (last : list Call),
    calls handle (__call__ args) w = (Sets_call <$> take k args) ++ last
    /\ (last = [] \/ exists l, last = [super_call l])
    /\ length (calls handle (__call__ args) w) <= S (length args).
Proof.
  destruct (any_native args) eqn:Hnat.
  - rewrite (__call___native _ Hnat), calls_coerce_then_generic.
    pose proof (calls_comprehension handle args w) as Hpre.
    set (comp := calls handle (mapM (fun a => call (Sets_call a)) args) w) in *.
    assert (comp = Sets_call <$> take (length comp) args) as Hcomp.
    { destruct Hpre as [rest Hrest].
      rewrite fmap_take, Hrest. by rewrite take_app_length. }
    pose proof (prefix_length _ _ Hpre) as Hlen. rewrite length_fmap in Hlen.
    exists (length comp). eexists. split; [by rewrite <- Hcomp|].
    destruct (run handle _ w) as [[wrapped|e] w']; split.
    + right. by eexists.
    + rewrite length_app. simpl. lia.
    + by left.
    + rewrite app_nil_r. lia.
  - destruct args as [|a0 args].
    + exists 0, []. unfold __call__. rewrite Hnat. simpl.
      destruct (category_of Sets); simpl; split; try split; auto; lia.
    + assert (a0 :: args <> []) as Hne by done.
      rewrite (__call___generic _ Hnat Hne).
      exists 0, [super_call (a0 :: args)]. simpl.
      destruct (handle _ w) as [[?|?] ?]; simpl;
        (split; [done|]; split; [right; by eexists|lia]).
Qed.

(** X3.  Arguments that are all category-aware, or at any rate none of
    them a plain container, are handed to the generic path as they are:
    for a non-empty such [args] the call is one call of the generic path
    on [args] itself, and whatever that returns or raises, with the state
    it leaves, is the outcome. *)
Theorem no_container_is_the_generic_path (args : list PyObj) (w : World) :
  args <> [] ->
  (forall a, a ∈ args -> type a ∉ native_python_containers) ->
  run handle (__call__ args) w = handle (super_call args) w
  /\ calls handle (__call__ args) w = [super_call args].
Proof.
  intros Hne Hnone.
  assert (any_native args = false) as Hnat.
  { destruct (any_native args) eqn:E; [|done].
    apply any_native_spec in E as (a & Hin & Hty). by destruct (Hnone a Hin). }
  rewrite (__call___generic _ Hnat Hne), run_call. split; [done|].
  simpl. by destruct (handle _ w) as [[?|?] ?].
Qed.

(** X4.  With a wrapper that answers [f a] for every argument [a] and
    keeps no state, a call with a plain container among [args] passes
    exactly [[f(a) for a in args]], in the order of [args], to the generic
    path, whose outcome is the outcome of the call. *)
Theorem stateless_wrapper_maps_arguments (f : PyObj -> PyObj)
    (args : list PyObj) (w : World) :
  (forall a w, handle (Sets_call a) w = (Ok (f a), w)) ->
  (exists a, a ∈ args /\ type a ∈ native_python_containers) ->
  run handle (__call__ args) w = handle (super_call (f <$> args)) w
  /\ calls handle (__call__ args) w
     = (Sets_call <$> args) ++ [super_call (f <$> args)].
Proof.
  intros Hf Hnat%any_native_spec.
  assert (forall l w, run handle (mapM (fun a => call (Sets_call a)) l) w
                      = (Ok (f <$> l), w)) as Hrun.
  { induction l as [|a l IH]; intros w0; simpl; [done|].
    rewrite Hf. rewrite run_bind, IH. done. }
  rewrite (__call___native _ Hnat).
  rewrite run_coerce_then_generic, calls_coerce_then_generic, Hrun.
  split; [done|].
  by destruct (run_comprehension handle _ _ _ _ (Hrun args w)) as [-> _].
Qed.

End Runs.
End MoreFunctorFacts.

(** ** The names of constructed categories *)

Section NameFacts.
Import CartesianProductsCategory CategoryNames.
Context `{H : Hierarchy}.
Variable names : BaseCat -> string.

(** X5.  Categories are told apart by their names.  When the categories
    of the hierarchy have distinct names, none of which starts with
    ["Cartesian products of "], then [_repr_object_names] is injective on
    all categories, constructed ones included; and the name of a
    constructed category is the name of its base with 22 characters in
    front. *)
Theorem _repr_object_names_injective (x y : Category) :
  (forall c d, names c = names d -> c = d) ->
  (forall c s, names c <> "Cartesian products of " +:+ s) ->
  (_repr_object_names names x = _repr_object_names names y -> x = y)
  /\ String.length (_repr_object_names names (CartesianProductsOf x))
     = 22 + String.length (_repr_object_names names x).
Proof.
  intros Hinj Hfresh. split; [|reflexivity].
  revert y. induction x as [c|base IH]; intros [d|base']; simpl.
  - intros Heq. f_equal. by apply Hinj.
  - intros Heq. by destruct (Hfresh c _ Heq).
  - intros Heq. symmetry in Heq. by destruct (Hfresh d _ Heq).
  - intros Heq. f_equal. apply IH.
    by apply (inj (String.app "Cartesian products of ")).
Qed.

End NameFacts.

(** ** Sessions with abelian Lie algebras *)

Section SessionFacts.
Import AbelianLieAlgebra LieSession.
Context `{L : ModuleLibrary}.

Lemma extends_refl (w : World) : extends w w.
Proof. by repeat split. Qed.

Lemma extends_trans (w1 w2 w3 : World) :
  extends w1 w2 -> extends w2 w3 -> extends w1 w3.
Proof.
  intros (? & ? & ?) (? & ? & ?). repeat split; by etrans.
Qed.

Lemma fresh_unallocated (w : World) : heap w !! fresh (dom (heap w)) = None.
Proof. apply not_elem_of_dom, is_fresh. Qed.

Lemma __classcall___extends (R : Ring) (n : option Z) (M : Mod)
    (amb : option addr) (w : World) :
  extends w (__classcall__ R n M amb w).2.
Proof.
  unfold __classcall__.
  destruct (cache w !! (R, n, M, amb)) as [a|] eqn:E; simpl.
  - apply extends_refl.
  - repeat split; simpl; [| |done].
    + by apply insert_subseteq.
    + apply insert_subseteq, fresh_unallocated.
Qed.

Lemma __classcall_private___extends (R : Ring) (n : option Z)
    (M : option Mod) (amb : option addr) (w : World) :
  extends w (__classcall_private__ R n M amb w).2.
Proof.
  unfold __classcall_private__, st_bind, of_result.
  destruct (normalized_M R n M) as [M'|e]; simpl; [|apply extends_refl].
  apply __classcall___extends.
Qed.

Lemma zero_extends (self : addr) (w : World) : extends w (zero self w).2.
Proof.
  unfold zero. destruct (zero_cache w !! self) as [z|] eqn:E; simpl.
  - apply extends_refl.
  - destruct (heap w !! self) as [inst|]; simpl; [|apply extends_refl].
    repeat split; simpl; [done..|]. by apply insert_subseteq.
Qed.

Lemma zero_consistent (self : addr) (w : World) :
  cache_consistent w -> cache_consistent (zero self w).2.
Proof.
  unfold zero. destruct (zero_cache w !! self) as [z|]; simpl; [done|].
  by destruct (heap w !! self) as [inst|].
Qed.

(** The shape of a call of [subalgebra]: a raise that leaves the state
    alone, or a constructor call. *)
Lemma subalgebra_cases (self : addr) (gens : list Element) (w : World) :
  (exists e, subalgebra self gens w = (Raise e, w))
  \/ (exists inst N N',
        heap w !! self = Some inst
        /\ subspace (_M inst) (value <$> gens) = Ok N
        /\ change_ring N (_base inst) = Ok N'
        /\ subalgebra self gens w
           = __classcall__ (_base inst) None N' (Some (_ambient inst)) w).
Proof.
  destruct (heap w !! self) as [inst|] eqn:Hs.
  - destruct (subspace (_M inst) (value <$> gens)) as [N|e] eqn:HN.
    + destruct (change_ring N (_base inst)) as [N'|e] eqn:HN'.
      * right. exists inst, N, N'. repeat split; try done.
        by apply subalgebra_unfold with N.
      * left. exists e. unfold subalgebra, st_bind.
        rewrite (deref_live _ _ _ Hs). unfold of_result at 1. rewrite HN.
        rewrite (base_ring_live _ _ _ Hs).
        unfold __classcall_private__, st_bind, of_result. simpl. by rewrite HN'.
    + left. exists e. unfold subalgebra, st_bind.
      rewrite (deref_live _ _ _ Hs). unfold of_result. by rewrite HN.
  - left. exists ReferenceError. unfold subalgebra, st_bind, deref. by rewrite Hs.
Qed.

Lemma perform_extends (op : Op) (w : World) : extends w (perform op w).
Proof.
  destruct op as [R n M amb|self gens|self|x y]; simpl.
  - apply __classcall_private___extends.
  - destruct (subalgebra_cases self gens w)
      as [[e ->]|(inst & N & N' & _ & _ & _ & ->)].
    + apply extends_refl.
    + apply __classcall___extends.
  - apply zero_extends.
  - apply zero_extends.
Qed.

Lemma perform_consistent (op : Op) (w : World) :
  cache_consistent w -> cache_consistent (perform op w).
Proof.
  intros Hw. destruct op as [R n M amb|self gens|self|x y]; simpl.
  - by apply __classcall_private___consistent.
  - destruct (subalgebra_cases self gens w)
      as [[e ->]|(inst & N & N' & _ & _ & _ & ->)]; [done|].
    destruct (__classcall___returns (_base inst) None N' (Some (_ambient inst)) w)
      as (S & w' & Hcall & _).
    rewrite Hcall. simpl. by eapply __classcall___consistent.
  - by apply zero_consistent.
  - by apply zero_consistent.
Qed.

Lemma perform_all_snoc (ops : list Op) (op : Op) (w : World) :
  perform_all (ops ++ [op]) w = perform op (perform_all ops w).
Proof. unfold perform_all. by rewrite foldl_app. Qed.

(** X6.  Every state a session can reach is consistent: whatever
    constructor calls, [subalgebra], [zero] and bracket calls were made,
    in whatever order and whether they returned or raised, each cached
    argument tuple leads to a live instance that has exactly the
    attributes [__init__] gives it. *)
Theorem sessions_keep_the_cache_consistent (ops : list Op) :
  cache_consistent (perform_all ops empty_world).
Proof.
  induction ops as [|op ops IH] using rev_ind.
  - apply cache_consistent_empty.
  - rewrite perform_all_snoc. by apply perform_consistent.
Qed.

(** X7.  Nothing is ever changed or taken away.  Along any sequence of
    calls, from any state, every cache entry, every instance with its
    attributes, and every remembered zero stays as it is; so the ambient
    algebra, base ring and module of an instance never change. *)
Theorem sessions_only_add (ops : list Op) (w : World) :
  extends w (perform_all ops w)
  /\ forall (self : addr) (inst : Instance),
       heap w !! self = Some inst ->
       heap (perform_all ops w) !! self = Some inst
       /\ (ambient self (perform_all ops w)).1 = (ambient self w).1
       /\ (AbelianLieAlgebra.base_ring self (perform_all ops w)).1
          = (AbelianLieAlgebra.base_ring self w).1
       /\ (free_module self (perform_all ops w)).1 = (free_module self w).1.
Proof.
  assert (extends w (perform_all ops w)) as Hext.
  { induction ops as [|op ops IH] using rev_ind; [apply extends_refl|].
    rewrite perform_all_snoc. eapply extends_trans; [exact IH|].
    apply perform_extends. }
  split; [done|]. intros self inst Hs.
  destruct Hext as (_ & Hheap & _).
  pose proof (lookup_weaken _ _ _ _ Hs Hheap) as Hs'.
  split; [done|].
  rewrite (ambient_live _ _ _ Hs), (ambient_live _ _ _ Hs'),
    (base_ring_live _ _ _ Hs), (base_ring_live _ _ _ Hs').
  unfold free_module, st_bind.
  by rewrite (deref_live _ _ _ Hs), (deref_live _ _ _ Hs').
Qed.

Lemma __init___inj (self : addr) (R R' : Ring) (n n' : option Z) (M M' : Mod)
    (amb amb' : option addr) :
  __init__ self R n M amb = __init__ self R' n' M' amb' ->
  R = R' /\ M = M' /\ amb = amb'.
Proof.
  unfold __init__. destruct amb as [a|], amb' as [a'|]; intros Heq;
    by simplify_eq.
Qed.

(** X8.  Different arguments give different instances.  In a consistent
    state, two constructor calls whose arguments normalize to different
    tuples both return, and they return two distinct instances (as in the
    docstring, lines 64-72). *)
Theorem different_arguments_give_different_instances
    (R1 R2 : Ring) (n1 n2 : option Z) (M1 M2 : option Mod)
    (amb1 amb2 : option addr) (k1 k2 : Key) (w : World) :
  cache_consistent w ->
  normalized_args R1 n1 M1 amb1 = Ok k1 ->
  normalized_args R2 n2 M2 amb2 = Ok k2 ->
  k1 <> k2 ->
  exists (A1 A2 : addr) (w1 w2 : World),
    __classcall_private__ R1 n1 M1 amb1 w = (Ok A1, w1)
    /\ __classcall_private__ R2 n2 M2 amb2 w1 = (Ok A2, w2)
    /\ A1 <> A2.
Proof.
  intros Hw H1 H2 Hne.
  apply normalized_args_inv in H1 as (M1' & HM1 & ->).
  apply normalized_args_inv in H2 as (M2' & HM2 & ->).
  destruct (__classcall___returns R1 None M1' amb1 w) as (A1 & w1 & Hc1 & Hk1).
  destruct (__classcall___returns R2 None M2' amb2 w1) as (A2 & w2 & Hc2 & Hk2).
  exists A1, A2, w1, w2.
  rewrite (__classcall_private___unfold _ _ _ _ _ _ HM1),
    (__classcall_private___unfold _ _ _ _ _ _ HM2).
  split; [done|]. split; [done|]. intros <-.
  pose proof (__classcall___consistent _ _ _ _ _ _ _ Hw Hc1) as Hw1.
  pose proof (__classcall___consistent _ _ _ _ _ _ _ Hw1 Hc2) as Hw2.
  pose proof (__classcall___cache _ _ _ _ _ _ _ _ _ Hc2 Hk1) as Hk1'.
  pose proof (Hw2 _ _ _ _ _ Hk1') as Hi1.
  pose proof (Hw2 _ _ _ _ _ Hk2) as Hi2.
  rewrite Hi1 in Hi2. injection Hi2 as Hi.
  apply __init___inj in Hi as (-> & -> & ->). by apply Hne.
Qed.

Lemma zero_remembered (self : addr) (w w' : World) (z : Element) :
  zero self w = (Ok z, w') -> zero_cache w' !! self = Some z.
Proof.
  unfold zero. destruct (zero_cache w !! self) as [z0|] eqn:E.
  - by intros [= <- <-].
  - destruct (heap w !! self) as [inst|]; [|done].
    intros [= <- <-]. simpl. apply lookup_insert_eq.
Qed.

(** X9.  [zero] is remembered for good.  Once [L.zero()] has returned
    [z], every later call of [L.zero()], and every bracket of an element
    of [L], returns [z] without changing the state, whatever constructor,
    [subalgebra], [zero] and bracket calls came in between. *)
Theorem zero_is_remembered (self : addr) (z : Element) (w w1 : World)
    (ops : list Op) (x y : Element) :
  zero self w = (Ok z, w1) ->
  parent x = self ->
  zero self (perform_all ops w1) = (Ok z, perform_all ops w1)
  /\ _bracket_ x y (perform_all ops w1) = (Ok z, perform_all ops w1).
Proof.
  intros Hz <-. unfold _bracket_.
  assert (zero (parent x) (perform_all ops w1) = (Ok z, perform_all ops w1));
    [|done].
  apply zero_remembered in Hz.
  induction ops as [|op ops IH] using rev_ind.
  - unfold zero. simpl. by rewrite Hz.
  - rewrite perform_all_snoc.
    destruct (perform_extends op (perform_all ops w1)) as (_ & _ & Hzc).
    assert (zero_cache (perform_all ops w1) !! parent x = Some z) as Hz'.
    { by apply zero_remembered in IH. }
    pose proof (lookup_weaken _ _ _ _ Hz' Hzc) as Hz''.
    unfold zero. by rewrite Hz''.
Qed.

(** X10.  [subalgebra] fails cleanly.  When [M.subspace] raises on the
    generators, or [change_ring] raises on their span, [L.subalgebra(gens)]
    raises the same exception, no instance is created and the state is
    left as it was. *)
Theorem subalgebra_fails_cleanly (self : addr) (inst : Instance)
    (gens : list Element) (e : exn) (w : World) :
  heap w !! self = Some inst ->
  (subspace (_M inst) (value <$> gens) = Raise e
   \/ exists N, subspace (_M inst) (value <$> gens) = Ok N
                /\ change_ring N (_base inst) = Raise e) ->
  subalgebra self gens w = (Raise e, w).
Proof.
  intros Hs Hfail. unfold subalgebra, st_bind.
  rewrite (deref_live _ _ _ Hs). unfold of_result at 1.
  destruct Hfail as [->|(N & -> & HN')]; [done|].
  rewrite (base_ring_live _ _ _ Hs).
  unfold __classcall_private__, st_bind, of_result. simpl. by rewrite HN'.
Qed.

(** X11.  Asking twice gives the same subalgebra.  When
    [L.subalgebra(gens)] has returned [S], the same call returns [S] again,
    and this second call changes nothing. *)
Theorem subalgebra_twice (self S : addr) (gens : list Element) (w w1 : World) :
  subalgebra self gens w = (Ok S, w1) ->
  subalgebra self gens w1 = (Ok S, w1).
Proof.
  intros Hsub.
  destruct (subalgebra_cases self gens w)
    as [[e He]|(inst & N & N' & Hs & HN & HN' & Hcall)]; [congruence|].
  rewrite Hcall in Hsub.
  pose proof (__classcall___heap _ _ _ _ _ _ _ _ _ Hsub Hs) as Hs1.
  rewrite (subalgebra_unfold _ _ _ _ _ _ Hs1 HN HN').
  apply __classcall___hit.
  destruct (__classcall___returns (_base inst) None N' (Some (_ambient inst)) w)
    as (S' & w' & Hcall' & Hk).
  rewrite Hsub in Hcall'. by injection Hcall' as -> ->.
Qed.

(** X12.  Subalgebras of subalgebras stay inside the same ambient
    algebra.  In a consistent state, when [S = L.subalgebra(g1)] and then
    [T = S.subalgebra(g2)], both [S] and [T] have the ambient algebra and
    the base ring of [L], and both are in the category of subobjects. *)
Theorem subalgebra_of_subalgebra (self S T : addr) (inst : Instance)
    (g1 g2 : list Element) (w w1 w2 : World) :
  cache_consistent w ->
  heap w !! self = Some inst ->
  subalgebra self g1 w = (Ok S, w1) ->
  subalgebra S g2 w1 = (Ok T, w2) ->
  exists (iS iT : Instance),
    heap w2 !! S = Some iS /\ heap w2 !! T = Some iT
    /\ _ambient iS = _ambient inst /\ _ambient iT = _ambient inst
    /\ _base iS = _base inst /\ _base iT = _base inst
    /\ _category iS = Subobjects (FiniteDimensionalLieAlgebrasWithBasis (_base inst))
    /\ _category iT = Subobjects (FiniteDimensionalLieAlgebrasWithBasis (_base inst)).
Proof.
  intros Hw Hs H1 H2.
  destruct (subalgebra_cases self g1 w)
    as [[e He]|(inst' & N & N' & Hs' & _ & _ & Hc1)]; [congruence|].
  rewrite Hs in Hs'. injection Hs' as <-. rewrite Hc1 in H1.
  pose proof (__classcall___instance _ _ _ _ _ _ _ Hw H1) as HS.
  pose proof (__classcall___consistent _ _ _ _ _ _ _ Hw H1) as Hw1.
  destruct (subalgebra_cases S g2 w1)
    as [[e He]|(iS & P & P' & HS' & _ & _ & Hc2)]; [congruence|].
  rewrite HS in HS'. injection HS' as <-. rewrite Hc2 in H2. simpl in H2.
  pose proof (__classcall___instance _ _ _ _ _ _ _ Hw1 H2) as HT.
  pose proof (__classcall___heap _ _ _ _ _ _ _ _ _ H2 HS) as HS2.
  eexists _, _. split; [exact HS2|]. split; [exact HT|]. by repeat split.
Qed.

(** X13.  The attributes of a constructed instance.  In a consistent
    state a constructor call whose module argument normalizes to [M']
    returns an instance, fresh or cached, whose module is [M'] and whose
    dimension [n()] is the rank of [M'], whatever [n] was passed; its base
    ring is [R]; without [ambient] it is its own ambient algebra, and with
    [ambient] it has that ambient algebra and is in the category of
    subobjects. *)
Theorem constructed_instance_attributes (R : Ring) (n0 : option Z)
    (M : option Mod) (amb : option addr) (M' : Mod) (w : World) :
  cache_consistent w ->
  normalized_M R n0 M = Ok M' ->
  exists (self : addr) (w' : World),
    __classcall_private__ R n0 M amb w = (Ok self, w')
    /\ free_module self w' = (Ok M', w')
    /\ AbelianLieAlgebra.n self w' = (Ok (rank M'), w')
    /\ AbelianLieAlgebra.base_ring self w' = (Ok R, w')
    /\ ambient self w' = (Ok (default self amb), w')
    /\ (_category <$> heap w' !! self)
       = Some (match amb with
               | None => FiniteDimensionalLieAlgebrasWithBasis R
               | Some _ => Subobjects (FiniteDimensionalLieAlgebrasWithBasis R)
               end).
Proof.
  intros Hw HM.
  destruct (__classcall___returns R None M' amb w) as (self & w' & Hcall & _).
  exists self, w'.
  rewrite (__classcall_private___unfold _ _ _ _ _ _ HM).
  pose proof (__classcall___instance _ _ _ _ _ _ _ Hw Hcall) as Hi.
  split; [done|].
  rewrite (ambient_live _ _ _ Hi), (base_ring_live _ _ _ Hi), Hi.
  unfold free_module, AbelianLieAlgebra.n, st_bind.
  rewrite (deref_live _ _ _ Hi).
  by destruct amb.
Qed.

End SessionFacts.

(** ** Elements and bases *)

Section ElementFacts.
Import AbelianLieAlgebra AbelianLieAlgebraElements.
Context `{V : VectorLibrary}.

(** X14.  [basis] and [gens] agree.  For a live instance [L], [L.basis()]
    is indexed by [0, ..., len - 1], all its members are elements of [L],
    and the vector of the [i]-th member is the [i]-th entry of
    [L.gens()]; [lie_algebra_generators] is the same family.  Neither call
    changes the state. *)
Theorem basis_agrees_with_gens (self : addr) (inst : Instance) (w : World) :
  heap w !! self = Some inst ->
  exists (B : list (nat * Element)) (G : list Vector),
    basis self w = (Ok B, w)
    /\ lie_algebra_generators self w = (Ok B, w)
    /\ gens self w = (Ok G, w)
    /\ B.*1 = seq 0 (length G)
    /\ (to_vector <$> B.*2) = G
    /\ (forall i b, B !! i = Some b ->
          b.1 = i /\ parent b.2 = self /\ G !! i = Some (value b.2)).
Proof.
  intros Hs. eexists _, _.
  unfold lie_algebra_generators, basis, gens, st_bind.
  rewrite (deref_live _ _ _ Hs). simpl.
  split; [done|]. split; [done|]. split; [done|].
  set (G := module_basis (_M inst)). split; [|split].
  - rewrite fmap_imap.
    etrans; [apply (imap_seq_0 G id)|apply list_fmap_id].
  - rewrite !fmap_imap.
    etrans; [apply (imap_const id G)|apply list_fmap_id].
  - intros i b Hb. rewrite list_lookup_imap in Hb.
    destruct (G !! i) as [v|]; simpl in Hb; [|done].
    by injection Hb as <-.
Qed.

(** X15.  Iterating over an element yields its non-zero coefficients.
    For an element [x] of a live instance, [list(x)] is what
    [x.value.iteritems()] yields, in the same order, without the items
    whose coefficient is the zero of the base ring: an item is yielded if
    and only if its coefficient is not zero, and nothing at all when every
    coefficient is zero.  The state is not changed. *)
Theorem iteration_skips_zero_coefficients (x : Element) (inst : Instance)
    (w : World) :
  heap w !! parent x = Some inst ->
  exists (items : list (Z * Coeff)),
    __iter__ x w = (Ok items, w)
    /\ items `sublist_of` iteritems (value x)
    /\ (forall i c, (i, c) ∈ items <->
          (i, c) ∈ iteritems (value x) /\ c <> ring_zero (_base inst))
    /\ ((forall i c, (i, c) ∈ iteritems (value x) -> c = ring_zero (_base inst)) ->
        items = []).
Proof.
  intros Hs. eexists. unfold __iter__, st_bind.
  rewrite (base_ring_live _ _ _ Hs). simpl. split; [done|].
  split; [apply sublist_filter|]. split.
  - intros i c. rewrite list_elem_of_filter. simpl. tauto.
  - intros Hzero. apply elem_of_nil_inv. intros [i c] Hin.
    apply list_elem_of_filter in Hin as [Hne Hin]. simpl in Hne.
    by apply Hne, (Hzero i).
Qed.

(** X16.  Conversion into an algebra.  Given that the module returns its
    own vectors unchanged ([M(M(x)) = M(x)]), a conversion [y = L(x)] that
    returns gives an element of [L], leaves the state alone, looks only
    at the vector of an element argument and not at its parent, and is
    idempotent: [L(y)] is [y]. *)
Theorem conversion_is_idempotent (self : addr) (x : Arg) (y : Element)
    (w w' : World) :
  (forall M d v, module_call M d = Ok v -> module_call M (of_vector v) = Ok v) ->
  _element_constructor_ self x w = (Ok y, w') ->
  w' = w
  /\ parent y = self
  /\ _element_constructor_ self (AnElement y) w = (Ok y, w)
  /\ (forall p, _element_constructor_ self
                  (AnElement {| parent := p; value := value y |}) w = (Ok y, w)).
Proof.
  intros Hidem. unfold _element_constructor_, st_bind, deref, of_result.
  destruct (heap w !! self) as [inst|]; [|done].
  destruct x as [x|d]; simpl.
  - destruct (module_call (_M inst) (of_vector (value x))) as [v|e] eqn:E; [|done].
    intros [= <- <-]. simpl. by rewrite (Hidem _ _ _ E).
  - destruct (module_call (_M inst) d) as [v|e] eqn:E; [|done].
    intros [= <- <-]. simpl. by rewrite (Hidem _ _ _ E).
Qed.

End ElementFacts.

(** ** The fixture of [conftest.py] *)

Section ConftestFacts.
Import Conftest.

Lemma update_locals_other (ns : positive) (d : gmap string PyVal) (k : string) :
  k <> "sage" -> k <> "doctest_namespace" ->
  update d (locals ns) !! k = d !! k.
Proof.
  intros H1 H2. unfold update, locals. rewrite lookup_union_r; [done|].
  rewrite lookup_insert_ne by done. by rewrite lookup_singleton_ne.
Qed.

Lemma update_locals_sage (ns : positive) (d : gmap string PyVal) :
  update d (locals ns) !! "sage" = Some (VModule "sage").
Proof.
  unfold update, locals. apply lookup_union_Some_l.
  rewrite lookup_insert_ne by done. apply lookup_singleton_eq.
Qed.

Lemma update_locals_self (ns : positive) (d : gmap string PyVal) :
  update d (locals ns) !! "doctest_namespace" = Some (VDict ns).
Proof.
  unfold update, locals. apply lookup_union_Some_l. apply lookup_insert_eq.
Qed.

(** X17.  What the fixture adds.  When [import sage.all] succeeds, the
    namespace afterwards holds the package [sage] under ["sage"] and a
    reference to itself under ["doctest_namespace"], overwriting what was
    there; every other name is as before, so no name is removed and none
    of the names defined inside [sage.all] is added; other dictionaries
    are untouched.  When the import raises, the exception propagates and
    nothing is changed. *)
Theorem add_imports_adds_two_names (ns : positive) (d : gmap string PyVal)
    (store : gmap positive (gmap string PyVal)) :
  store !! ns = Some d ->
  exists (store' : gmap positive (gmap string PyVal)) (d' : gmap string PyVal),
    add_imports (Ok tt) ns store = (Ok tt, store')
    /\ store' !! ns = Some d'
    /\ d' !! "sage" = Some (VModule "sage")
    /\ d' !! "doctest_namespace" = Some (VDict ns)
    /\ (forall k, k <> "sage" -> k <> "doctest_namespace" -> d' !! k = d !! k)
    /\ (forall k, is_Some (d !! k) -> is_Some (d' !! k))
    /\ (forall other, other <> ns -> store' !! other = store !! other)
    /\ (forall e, add_imports (Raise e) ns store = (Raise e, store)).
Proof.
  intros Hd. unfold add_imports. rewrite Hd.
  eexists _, _. split; [done|]. split; [apply lookup_insert_eq|].
  split; [apply update_locals_sage|]. split; [apply update_locals_self|].
  split; [apply update_locals_other|]. split; [|split; [|done]].
  - intros k Hk. unfold update. apply lookup_union_is_Some. by right.
  - intros other Hne. by rewrite lookup_insert_ne.
Qed.

(** X18.  The fixture can run before every test.  Running it again
    changes nothing: for every outcome of the import and every store, the
    store after two runs is the store after one. *)
Theorem add_imports_is_idempotent (r : Result unit) (ns : positive)
    (store : gmap positive (gmap string PyVal)) :
  add_imports r ns (add_imports r ns store).2 = add_imports r ns store.
Proof.
  unfold add_imports. destruct r as [[]|e]; [|done].
  destruct (store !! ns) as [d|] eqn:Hd; simpl.
  - rewrite lookup_insert_eq. f_equal. rewrite insert_insert_eq. f_equal.
    unfold update. by rewrite (assoc_L (∪)), (idemp_L (∪)).
  - by rewrite Hd.
Qed.

End ConftestFacts.

(** ** The further properties at concrete inputs *)

Section MoreAtTheDocstringHierarchy.
Import CartesianProductsCategory CartesianProductFunctor CategoryNames.
Import Examples MoreExamples.

Lemma other_not_native (name : string) :
  other name ∉ native_python_containers.
Proof.
  unfold native_python_containers. intros Hin.
  repeat (apply elem_of_cons in Hin as [Hin|Hin]; [discriminate|]).
  by apply elem_of_nil in Hin.
Qed.

(** [cartesian_product([[0, 1], object(), M])] with a wrapper that rejects
    the object. *)
Lemma wrapper_exception_propagates_witness :
  run picky_handle (__call__ [list_0_1; an_object; a_monoid]) 0
    = (Raise TypeError, 2)
  /\ calls picky_handle (__call__ [list_0_1; an_object; a_monoid]) 0
     = [Sets_call list_0_1; Sets_call an_object].
Proof.
  apply (wrapper_exception_propagates picky_handle [list_0_1] [a_monoid]
           [ParentObj "FiniteEnumeratedSet" [AInt 0; AInt 1]
              (doc FiniteEnumeratedSets)]
           an_object TypeError 0 1 2); reflexivity.
Defined.

(** [cartesian_product([M, M])] *)
Lemma no_container_is_the_generic_path_witness :
  run recording_handle (__call__ [a_monoid; a_monoid]) []
    = recording_handle (super_call [a_monoid; a_monoid]) []
  /\ calls recording_handle (__call__ [a_monoid; a_monoid]) []
     = [super_call [a_monoid; a_monoid]].
Proof.
  apply (no_container_is_the_generic_path recording_handle
           [a_monoid; a_monoid] []).
  - discriminate.
  - intros a Ha. apply elem_of_cons in Ha as [->|Ha].
    + apply other_not_native.
    + apply list_elem_of_singleton in Ha as ->. apply other_not_native.
Defined.

(** [cartesian_product([[0, 1], M, ('a', 'b', 'c')])] *)
Lemma stateless_wrapper_maps_arguments_witness :
  calls stateless_handle (__call__ [list_0_1; a_monoid; tuple_a_b_c]) tt
  = [ Sets_call list_0_1; Sets_call a_monoid; Sets_call tuple_a_b_c;
      super_call [ as_enumerated_set list_0_1; a_monoid;
                   as_enumerated_set tuple_a_b_c ] ].
Proof.
  apply (stateless_wrapper_maps_arguments stateless_handle as_enumerated_set
           [list_0_1; a_monoid; tuple_a_b_c] tt).
  - reflexivity.
  - exists list_0_1. split; [apply elem_of_cons; by left|].
    simpl. unfold native_python_containers.
    apply elem_of_cons. right. apply elem_of_cons. by left.
Defined.

Lemma doc_names_injective (c d : DocCat) : doc_names c = doc_names d -> c = d.
Proof.
  destruct c as [| | | | | | | |[r]], d as [| | | | | | | |[r']]; simpl;
    intros Heq; try done; try discriminate.
  by simplify_eq.
Qed.

Lemma doc_names_not_constructed (c : DocCat) (s : string) :
  doc_names c <> "Cartesian products of " +:+ s.
Proof. destruct c; simpl; discriminate. Qed.

(** The names of [Monoids().CartesianProducts()] and
    [Semigroups().CartesianProducts()]. *)
Lemma _repr_object_names_injective_witness :
  _repr_object_names (H:=doc_hierarchy) doc_names (CartesianProductsOf (doc Monoids))
    = "Cartesian products of monoids"
  /\ (_repr_object_names (H:=doc_hierarchy) doc_names (CartesianProductsOf (doc Monoids))
      = _repr_object_names (H:=doc_hierarchy) doc_names (CartesianProductsOf (doc Semigroups)) ->
      CartesianProductsOf (doc Monoids) = CartesianProductsOf (doc Semigroups)).
Proof.
  split; [reflexivity|].
  apply (@_repr_object_names_injective doc_hierarchy doc_names
           (CartesianProductsOf (doc Monoids))
           (CartesianProductsOf (doc Semigroups))
           doc_names_injective doc_names_not_constructed).
Defined.

End MoreAtTheDocstringHierarchy.

Section MoreAtRowModules.
Import AbelianLieAlgebra LieSession AbelianLieAlgebraElements.
Import Examples MoreExamples.

(** [AbelianLieAlgebra(QQ, 2)] and [AbelianLieAlgebra(ZZ, 2)] (lines 64-67). *)
Lemma different_arguments_give_different_instances_witness :
  exists (A1 A2 : addr) (w1 w2 : World),
    __classcall_private__ QQ (Some 2%Z) None None empty_world = (Ok A1, w1)
    /\ __classcall_private__ ZZ (Some 2%Z) None None w1 = (Ok A2, w2)
    /\ A1 <> A2.
Proof.
  apply (@different_arguments_give_different_instances row_modules
           QQ ZZ (Some 2%Z) (Some 2%Z) None None None None
           (QQ, @None Z, (QQ, 2%nat, [[1; 0]; [0; 1]]%Z), @None positive)
           (ZZ, @None Z, (ZZ, 2%nat, [[1; 0]; [0; 1]]%Z), @None positive)
           empty_world).
  - apply cache_consistent_empty.
  - reflexivity.
  - reflexivity.
  - intros Heq. apply (f_equal (fun k => k.1.1.1)) in Heq. discriminate Heq.
Defined.

(** [L.zero()], then another algebra and a subalgebra, then [L.zero()]
    and a bracket again. *)
Lemma zero_is_remembered_witness :
  let ops := [ Construct ZZ (Some 2%Z) None None;
               Subalgebra 1%positive [two_a_plus_b; b_plus_c] ] in
  exists (z : Element) (w1 : World),
    zero 1%positive world_3 = (Ok z, w1)
    /\ zero 1%positive (perform_all ops w1) = (Ok z, perform_all ops w1)
    /\ _bracket_ two_a_plus_b b_plus_c (perform_all ops w1)
       = (Ok z, perform_all ops w1).
Proof.
  intros ops.
  destruct (zero_returns 1%positive L3 world_3 eq_refl)
    as (z & w1 & Hz & _).
  exists z, w1. split; [exact Hz|].
  apply (zero_is_remembered 1%positive z world_3 w1 ops
           two_a_plus_b b_plus_c Hz eq_refl).
Defined.

(** [L.subalgebra] on a vector of the wrong length. *)
Lemma subalgebra_fails_cleanly_witness :
  subalgebra 1%positive [too_short] world_3 = (Raise ArithmeticError, world_3).
Proof.
  apply (subalgebra_fails_cleanly 1%positive L3 [too_short] ArithmeticError
           world_3).
  - reflexivity.
  - left. reflexivity.
Defined.

Lemma subalgebra_of_L3_returns :
  subalgebra 1%positive [two_a_plus_b; b_plus_c] world_3 = (Ok 2%positive, world_3S).
Proof.
  unfold world_3S.
  assert ((subalgebra 1%positive [two_a_plus_b; b_plus_c] world_3).1
          = Ok 2%positive) as H1 by reflexivity.
  destruct (subalgebra 1%positive [two_a_plus_b; b_plus_c] world_3) as [r w].
  simpl in *. by rewrite H1.
Qed.

Lemma subalgebra_of_S_returns :
  subalgebra 2%positive [b_plus_c] world_3S = (Ok 3%positive, world_3T).
Proof.
  unfold world_3T.
  assert ((subalgebra 2%positive [b_plus_c] world_3S).1 = Ok 3%positive)
    as H1 by reflexivity.
  destruct (subalgebra 2%positive [b_plus_c] world_3S) as [r w].
  simpl in *. by rewrite H1.
Qed.

(** [L.subalgebra([2*a + b, b + c])], twice. *)
Lemma subalgebra_twice_witness :
  subalgebra 1%positive [two_a_plus_b; b_plus_c] world_3 = (Ok 2%positive, world_3S)
  /\ subalgebra 1%positive [two_a_plus_b; b_plus_c] world_3S
     = (Ok 2%positive, world_3S).
Proof.
  split; [exact subalgebra_of_L3_returns|].
  apply (subalgebra_twice 1%positive 2%positive [two_a_plus_b; b_plus_c]
           world_3 world_3S subalgebra_of_L3_returns).
Defined.

(** [S = L.subalgebra([2*a + b, b + c])] and [T = S.subalgebra([b + c])]. *)
Lemma subalgebra_of_subalgebra_witness :
  exists (iS iT : Instance),
    heap world_3T !! 2%positive = Some iS
    /\ heap world_3T !! 3%positive = Some iT
    /\ _ambient iS = 1%positive /\ _ambient iT = 1%positive
    /\ _base iS = QQ /\ _base iT = QQ.
Proof.
  destruct (subalgebra_of_subalgebra 1%positive 2%positive 3%positive L3
              [two_a_plus_b; b_plus_c] [b_plus_c] world_3 world_3S world_3T
              world_3_consistent eq_refl
              subalgebra_of_L3_returns subalgebra_of_S_returns)
    as (iS & iT & HS & HT & HaS & HaT & HbS & HbT & _).
  exists iS, iT. by repeat split.
Defined.

(** [AbelianLieAlgebra(QQ, 5, FreeModule(QQ, 3))] has dimension 3. *)
Lemma constructed_instance_attributes_witness :
  exists (self : addr) (w' : World),
    __classcall_private__ QQ (Some 5%Z) (Some QQ3) None empty_world = (Ok self, w')
    /\ AbelianLieAlgebra.n self w' = (Ok 3%Z, w')
    /\ ambient self w' = (Ok self, w').
Proof.
  destruct (constructed_instance_attributes QQ (Some 5%Z) (Some QQ3) None QQ3
              empty_world cache_consistent_empty eq_refl)
    as (self & w' & Hc & _ & Hn & _ & Hamb & _).
  exists self, w'. split; [exact Hc|]. split; [exact Hn|exact Hamb].
Defined.

(** [L.basis()] and [L.gens()] of the three-dimensional example
    (lines 209 and 225). *)
Lemma basis_agrees_with_gens_witness :
  exists (B : list (nat * Element)) (G : list Vector),
    basis 1%positive world_3 = (Ok B, world_3)
    /\ gens 1%positive world_3 = (Ok G, world_3)
    /\ B.*1 = [0; 1; 2]
    /\ (to_vector <$> B.*2) = G
    /\ G = [[1; 0; 0]; [0; 1; 0]; [0; 0; 1]]%Z.
Proof.
  destruct (basis_agrees_with_gens 1%positive L3 world_3 eq_refl)
    as (B & G & HB & _ & HG & Hidx & Hval & _).
  assert (G = [[1; 0; 0]; [0; 1; 0]; [0; 0; 1]]%Z) as HG3.
  { assert ((gens 1%positive world_3).1
            = Ok [[1; 0; 0]; [0; 1; 0]; [0; 0; 1]]%Z) as H1 by reflexivity.
    rewrite HG in H1. by injection H1. }
  exists B, G. split; [exact HB|]. split; [exact HG|].
  split; [by rewrite Hidx, HG3|]. split; [exact Hval|exact HG3].
Defined.

(** [list(2*a - c)] is [[(0, 2), (2, -1)]] (lines 260-262). *)
Lemma iteration_skips_zero_coefficients_witness :
  exists (items : list (Z * Z)),
    __iter__ two_a_minus_c world_3 = (Ok items, world_3)
    /\ items = [(0, 2); (2, -1)]%Z
    /\ items `sublist_of` [(0, 2); (1, 0); (2, -1)]%Z.
Proof.
  destruct (iteration_skips_zero_coefficients two_a_minus_c L3 world_3 eq_refl)
    as (items & Hit & Hsub & _).
  exists items. split; [exact Hit|].
  assert (items = [(0, 2); (2, -1)]%Z) as Hitems.
  { assert ((__iter__ two_a_minus_c world_3).1 = Ok [(0, 2); (2, -1)]%Z)
      as H1 by reflexivity.
    rewrite Hit in H1. by injection H1. }
  split; [exact Hitems|exact Hsub].
Defined.

Lemma row_vectors_module_call_own (M : Mod) (d : Datum) (v : Vector) :
  module_call M d = Ok v -> module_call M (of_vector v) = Ok v.
Proof.
  destruct d as [v0|z]; simpl.
  - destruct (decide (length v0 = M.1.2)) as [Hlen|]; [|done].
    intros [= <-]. by rewrite decide_True.
  - destruct (decide (z = 0%Z)); [|done].
    intros [= <-]. by rewrite decide_True by apply length_replicate.
Qed.

(** [L(0)] and [L(L(0))] (line 122). *)
Lemma conversion_is_idempotent_witness :
  let zero_of_L := {| parent := 1%positive; value := [0; 0; 0]%Z |} in
  _element_constructor_ 1%positive (@Other row_modules row_vectors (inr 0%Z)) world_3
    = (Ok zero_of_L, world_3)
  /\ _element_constructor_ 1%positive (AnElement zero_of_L) world_3
     = (Ok zero_of_L, world_3).
Proof.
  intros zero_of_L.
  assert (_element_constructor_ 1%positive (@Other row_modules row_vectors (inr 0%Z)) world_3
          = (Ok zero_of_L, world_3)) as Hc by reflexivity.
  split; [exact Hc|].
  apply (@conversion_is_idempotent row_modules row_vectors
           1%positive (@Other row_modules row_vectors (inr 0%Z)) zero_of_L
           world_3 world_3 row_vectors_module_call_own Hc).
Defined.

End MoreAtRowModules.

Section AtANamespace.
Import Conftest MoreExamples.

(** The fixture on a namespace that binds ["sage"] and ["ZZ"]. *)
Lemma add_imports_adds_two_names_witness :
  exists (store' : gmap positive (gmap string PyVal)) (d' : gmap string PyVal),
    add_imports (Ok tt) 7%positive {[ 7%positive := a_namespace ]} = (Ok tt, store')
    /\ store' !! 7%positive = Some d'
    /\ d' !! "sage" = Some (VModule "sage")
    /\ d' !! "doctest_namespace" = Some (VDict 7%positive)
    /\ d' !! "ZZ" = Some (VOther "Integer Ring").
Proof.
  destruct (add_imports_adds_two_names 7%positive a_namespace
              {[ 7%positive := a_namespace ]} (lookup_singleton_eq _ _))
    as (store' & d' & Hadd & Hns & Hsage & Hself & Hother & _).
  exists store', d'. split; [exact Hadd|]. split; [exact Hns|].
  split; [exact Hsage|]. split; [exact Hself|].
  rewrite Hother by discriminate.
  unfold a_namespace. rewrite lookup_insert_ne by discriminate.
  apply lookup_singleton_eq.
Defined.

End AtANamespace.
